(** * Origami Store: the fetch, cache, catalog and operation core

    A shallow embedding of the non-GUI part of [origami.py] (class
    [FlatpakStore]): string helpers as Python's [str] methods behave on
    them, JSON values as [json.loads] yields them, the image cache over an
    explicit file store, the catalog loader and its fallback, the
    installed-set tracker and the operation workers over an explicit
    controller state with the queue of callbacks handed to
    [GLib.idle_add].

    Python strings are modelled as [string], that is as sequences of code
    points below 256. *)

From Stdlib Require Import ZArith Ascii String List Bool Lia DecimalString DecimalNat.
From stdpp Require Import gmap strings list fin_maps.
Import ListNotations.

Set Warnings "-clear-no-such-hyp".

Local Open Scope string_scope.
Local Open Scope Z_scope.

(** ** Python [str] methods *)

Module PyStr.

Definition code (c : ascii) : Z := Z.of_N (N_of_ascii c).

(** [str.isspace] on one code point below 256, which is what the
    argument-less [str.strip] removes. *)
Definition is_space (c : ascii) : bool :=
  let n := code c in
  ((9 <=? n) && (n <=? 13)) || ((28 <=? n) && (n <=? 32))
  || (n =? 133) || (n =? 160).

Fixpoint lstrip (s : string) : string :=
  match s with
  | EmptyString => EmptyString
  | String c rest => if is_space c then lstrip rest else s
  end.

Fixpoint rstrip (s : string) : string :=
  match s with
  | EmptyString => EmptyString
  | String c rest =>
      match rstrip rest with
      | EmptyString => if is_space c then EmptyString else String c EmptyString
      | r => String c r
      end
  end.

Definition strip (s : string) : string := rstrip (lstrip s).

(** Truth value of a string: [if s:]. *)
Definition nonempty (s : string) : bool :=
  match s with EmptyString => false | String _ _ => true end.

(** [s.split(sep)] for a one-character separator: never the empty list. *)
Fixpoint split (sep : ascii) (s : string) : list string :=
  match s with
  | EmptyString => [EmptyString]
  | String c rest =>
      if Ascii.eqb c sep then EmptyString :: split sep rest
      else match split sep rest with
           | [] => [String c EmptyString]
           | w :: ws => String c w :: ws
           end
  end.

(** [needle in hay]. *)
Fixpoint contains (needle hay : string) : bool :=
  String.prefix needle hay
  || match hay with
     | EmptyString => false
     | String _ rest => contains needle rest
     end.

(** [str.lower] on one code point below 256: the ASCII capitals and the
    Latin-1 capitals (the multiplication sign 215 is not a letter). *)
Definition lower_char (c : ascii) : ascii :=
  let n := code c in
  if ((65 <=? n) && (n <=? 90))
     || ((192 <=? n) && (n <=? 222) && negb (n =? 215))
  then ascii_of_N (Z.to_N (n + 32)) else c.

Fixpoint lower (s : string) : string :=
  match s with
  | EmptyString => EmptyString
  | String c rest => String (lower_char c) (lower rest)
  end.

Definition tab : ascii := ascii_of_N 9.
Definition newline : ascii := ascii_of_N 10.

End PyStr.

(** ** Catalog fallback: category guess *)

(** [_guess_category_from_id], the chain of [if any(term in app_id_lower
    ...)] tests as written. *)
Definition any_term_in (terms : list string) (app_id_lower : string) : bool :=
  existsb (fun term => PyStr.contains term app_id_lower) terms.

Definition _guess_category_from_id (app_id : string) : list string :=
  let app_id_lower := PyStr.lower app_id in
  if any_term_in ["firefox"; "chrome"; "telegram"; "discord"; "thunderbird"] app_id_lower
  then ["Network"]
  else if any_term_in ["libreoffice"; "writer"; "calc"] app_id_lower
  then ["Office"]
  else if any_term_in ["gimp"; "inkscape"; "blender"; "krita"] app_id_lower
  then ["Graphics"]
  else if any_term_in ["vlc"; "audacity"; "spotify"] app_id_lower
  then ["AudioVideo"]
  else if any_term_in ["steam"; "game"; "chess"; "puzzle"] app_id_lower
  then ["Game"]
  else if any_term_in ["code"; "atom"; "eclipse"; "git"] app_id_lower
  then ["Development"]
  else if any_term_in ["calculator"; "archive"; "file"] app_id_lower
  then ["Utility"]
  else ["Other"].

(** The specification's reading of the same function: an ordered table of
    keyword rules, the first rule with a keyword occurring in the
    lower-cased id wins, [Other] when none does. *)
Definition keyword_rules : list (list string * string) :=
  [ (["firefox"; "chrome"; "telegram"; "discord"; "thunderbird"], "Network");
    (["libreoffice"; "writer"; "calc"], "Office");
    (["gimp"; "inkscape"; "blender"; "krita"], "Graphics");
    (["vlc"; "audacity"; "spotify"], "AudioVideo");
    (["steam"; "game"; "chess"; "puzzle"], "Game");
    (["code"; "atom"; "eclipse"; "git"], "Development");
    (["calculator"; "archive"; "file"], "Utility") ].

Definition rule_matches (app_id_lower : string) (rule : list string * string) : bool :=
  any_term_in (fst rule) app_id_lower.

Definition first_matching_category (app_id : string) : string :=
  match find (rule_matches (PyStr.lower app_id)) keyword_rules with
  | Some rule => snd rule
  | None => "Other"
  end.

Definition all_keywords : list string := flat_map fst keyword_rules.


(** ** JSON values

    What [json.loads] and [response.json()] return: [None], booleans,
    integers, floats (a finite binary float, mantissa and exponent),
    strings, lists and dicts with string keys. *)

#[warnings="-register-all"]
Inductive pyval : Type :=
| PNone
| PBool (b : bool)
| PInt (z : Z)
| PFloat (mantissa exponent : Z)
| PStr (s : string)
| PList (l : list pyval)
| PDict (d : gmap string pyval).

(** Python's truth value of a JSON value ([if x:]). *)
Definition truthy (v : pyval) : bool :=
  match v with
  | PNone => false
  | PBool b => b
  | PInt z => negb (z =? 0)
  | PFloat m _ => negb (m =? 0)
  | PStr s => PyStr.nonempty s
  | PList l => match l with [] => false | _ :: _ => true end
  | PDict d => negb (bool_decide (d = ∅))
  end.

(** [d.get(k, default)] on a dict. *)
Definition dict_get (d : gmap string pyval) (k : string) (dflt : pyval) : pyval :=
  default dflt (d !! k).

(** Calling [.get] on an arbitrary JSON value: only a dict has the method,
    anything else raises [AttributeError] ([None] here). *)
Definition py_get (v : pyval) (k : string) (dflt : pyval) : option pyval :=
  match v with
  | PDict d => Some (dict_get d k dflt)
  | _ => None
  end.

(** The characters of a string as one-character strings, which is what
    iterating over (or slicing) a [str] yields. *)
Fixpoint chars (s : string) : list pyval :=
  match s with
  | EmptyString => []
  | String c rest => PStr (String c EmptyString) :: chars rest
  end.

(** [for x in v]: the items a JSON value iterates over, or [None] for the
    [TypeError] of a value that is not iterable.  A dict iterates over its
    keys. *)
Definition py_iter (v : pyval) : option (list pyval) :=
  match v with
  | PList l => Some l
  | PStr s => Some (chars s)
  | PDict d => Some (PStr <$> (map_to_list d).*1)
  | _ => None
  end.


(** ** Remote fetcher: icon and screenshot URLs *)

(** [get_app_icon_url]: a template over the package id. *)
Definition get_app_icon_url (app_id : string) : string :=
  "https://flathub.org/repo/appstream/x86_64/icons/128x128/" ++ app_id ++ ".png".

Definition detail_url (app_id : string) : string :=
  "https://flathub.org/api/v1/apps/" ++ app_id.

(** What [requests.get] on the detail endpoint can do: raise (timeout,
    connection failure), or return a response with a status code whose
    [.json()] either raises or yields a value. *)
Inductive detail_response : Type :=
| DetailRaises
| DetailReturns (status_code : Z) (json : option pyval).

(** How a [try] body ends: it returns a value from the function, runs to
    its end, or raises. *)
Inductive try_result (A : Type) : Type :=
| Returned (a : A)
| FellThrough
| Raised.
Arguments Returned {A} a.
Arguments FellThrough {A}.
Arguments Raised {A}.

(** [screenshots[:1]]: a list (or a string) can be sliced; slicing any
    other truthy JSON value raises. *)
Definition slice_first (v : pyval) : option (list pyval) :=
  match v with
  | PList l => Some (take 1 l)
  | PStr s => Some (take 1 (chars s))
  | _ => None
  end.

(** The list comprehension [[shot.get('imgDesktopUrl', '') for shot in ...]]. *)
Fixpoint desktop_urls (shots : list pyval) : option (list pyval) :=
  match shots with
  | [] => Some []
  | shot :: rest =>
      match py_get shot "imgDesktopUrl" (PStr "") with
      | None => None
      | Some u =>
          match desktop_urls rest with
          | None => None
          | Some us => Some (u :: us)
          end
      end
  end.

(** The [try] body of [get_app_screenshot_urls]. *)
Definition screenshot_try (response : detail_response) : try_result (list pyval) :=
  match response with
  | DetailRaises => Raised
  | DetailReturns status_code json =>
      if status_code =? 200 then
        match json with
        | None => Raised
        | Some data =>
            match py_get data "screenshots" (PList []) with
            | None => Raised
            | Some screenshots =>
                if truthy screenshots then
                  match slice_first screenshots with
                  | None => Raised
                  | Some shots =>
                      match desktop_urls shots with
                      | None => Raised
                      | Some urls => Returned urls
                      end
                  end
                else FellThrough
            end
        end
      else FellThrough
  end.

(** [get_app_screenshot_urls]: the bare [except: pass] swallows whatever
    the body raised, and the code after the [try] returns the icon URL. *)
Definition get_app_screenshot_urls
    (requests_get : string -> detail_response) (app_id : string) : list pyval :=
  match screenshot_try (requests_get (detail_url app_id)) with
  | Returned urls => urls
  | FellThrough | Raised => [PStr (get_app_icon_url app_id)]
  end.

(** ** Catalog loader: normalisation of the API response *)

Definition no_description : string := "No description available".

(** The dict literal built for one entry of the response.  Every default
    is computed with [app.get], which only a dict has. *)
Definition normalize_entry (app : pyval) : option pyval :=
  match app with
  | PDict d =>
      Some (PDict (
        <["flatpakAppId" := dict_get d "id" (dict_get d "flatpakAppId" (PStr ""))]>
        (<["name" := dict_get d "name" (dict_get d "id" (PStr ""))]>
        (<["summary" := dict_get d "summary" (dict_get d "description" (PStr no_description))]>
        (<["categories" := dict_get d "categories" (PList [])]>
        (<["icon" := dict_get d "icon" (PStr "")]>
        (<["screenshots" := dict_get d "screenshots" (PList [])]> ∅)))))))
  | _ => None
  end.

(** One of the two [for app in ...: apps.append({...})] loops; an entry
    without [.get] raises out of the loop. *)
Fixpoint normalize_all (entries : list pyval) : option (list pyval) :=
  match entries with
  | [] => Some []
  | app :: rest =>
      match normalize_entry app with
      | None => None
      | Some r =>
          match normalize_all rest with
          | None => None
          | Some rs => Some (r :: rs)
          end
      end
  end.

(** [_parse_v2_response]: [None] stands for an exception leaving the
    function. *)
Definition _parse_v2_response (data : pyval) : option (list pyval) :=
  match data with
  | PList l => normalize_all l
  | PDict d =>
      match d !! "apps" with
      | Some apps =>
          match py_iter apps with
          | None => None
          | Some entries => normalize_all entries
          end
      | None => Some []
      end
  | _ => Some []
  end.


(** ** Disk image cache *)

Fixpoint ends_with_slash (s : string) : bool :=
  match s with
  | EmptyString => false
  | String c EmptyString => Ascii.eqb c "/"%char
  | String _ rest => ends_with_slash rest
  end.

(** [os.path.join] of a directory and a relative file name. *)
Definition path_join (dir name : string) : string :=
  if negb (PyStr.nonempty dir) || ends_with_slash dir
  then dir ++ name
  else dir ++ "/" ++ name.

(** What [requests.get(url, timeout=10, stream=True)] can do: raise, or
    return a response.  The response is known by what its methods do:
    [raise_for_status] raises or not, and [iter_content] yields some
    chunks and then ends or raises. *)
Inductive image_response : Type :=
| GetRaises (e : string)
| GetReturns (raise_for_status : option string)
             (chunks : list (list Byte.byte))
             (stream_error : option string).

(** The part of the machine [download_image] touches: the files on disk,
    the requests sent, the lines printed. *)
Record world : Type := World {
  files : gmap string (list Byte.byte);
  requests_sent : list string;
  printed : list string
}.

Definition os_path_exists (path : string) (w : world) : bool :=
  bool_decide (is_Some (files w !! path)).

Definition os_remove (path : string) (w : world) : world :=
  World (delete path (files w)) (requests_sent w) (printed w).

(** [open(path, 'wb')] followed by the writes of [chunks]. *)
Definition write_file (path : string) (chunks : list (list Byte.byte)) (w : world) : world :=
  World (<[path := concat chunks]> (files w)) (requests_sent w) (printed w).

Definition send_request (url : string) (w : world) : world :=
  World (files w) (requests_sent w ++ [url]) (printed w).

Definition print (line : string) (w : world) : world :=
  World (files w) (requests_sent w) (printed w ++ [line]).

Section ImageCache.

(** The image library and the hash are outside the repository: a
    decoded image is an opaque value, decoding a file's bytes at a size
    yields one or raises with a message, and [md5_hexdigest] is
    [hashlib.md5(url.encode()).hexdigest()]. *)
Variable pixbuf : Type.
Variable decode_at_scale : list Byte.byte -> Z -> Z -> pixbuf + string.
Variable no_such_file : string.
Variable md5_hexdigest : string -> string.
Variable cache_dir : string.

(** [GdkPixbuf.Pixbuf.new_from_file_at_scale(path, w, h, True)]. *)
Definition new_from_file_at_scale
    (path : string) (width height : Z) (w : world) : pixbuf + string :=
  match files w !! path with
  | Some bytes => decode_at_scale bytes width height
  | None => inr no_such_file
  end.

Definition cache_path_of (url : string) : string :=
  path_join cache_dir (md5_hexdigest url ++ ".png").

Definition download_error (url e : string) : string :=
  "Error downloading image " ++ url ++ ": " ++ e.

(** The second [try] of [download_image]: request, save, decode. *)
Definition fetch_and_store
    (requests_get : string -> image_response)
    (url : string) (max_size : Z * Z) (cache_path : string) (w : world)
  : option pixbuf * world :=
  let w := send_request url w in
  match requests_get url with
  | GetRaises e => (None, print (download_error url e) w)
  | GetReturns (Some e) _ _ => (None, print (download_error url e) w)
  | GetReturns None chunks stream_error =>
      let w := write_file cache_path chunks w in
      match stream_error with
      | Some e => (None, print (download_error url e) w)
      | None =>
          match new_from_file_at_scale cache_path (fst max_size) (snd max_size) w with
          | inl image => (Some image, w)
          | inr e => (None, print (download_error url e) w)
          end
      end
  end.

(** [download_image(url, max_size)]. *)
Definition download_image
    (requests_get : string -> image_response)
    (url : string) (max_size : Z * Z) (w : world)
  : option pixbuf * world :=
  if negb (PyStr.nonempty url) then (None, w)
  else
    let cache_path := cache_path_of url in
    if os_path_exists cache_path w then
      match new_from_file_at_scale cache_path (fst max_size) (snd max_size) w with
      | inl image => (Some image, w)
      | inr _ =>
          fetch_and_store requests_get url max_size cache_path
                          (os_remove cache_path w)
      end
    else fetch_and_store requests_get url max_size cache_path w.

End ImageCache.

Arguments new_from_file_at_scale {pixbuf} _ _ _ _ _ _.
Arguments fetch_and_store {pixbuf} _ _ _ _ _ _ _.
Arguments download_image {pixbuf} _ _ _ _ _ _ _ _.

(** ** Controller state and the calls into the user interface *)

(** The methods of the controller that workers call or hand to
    [GLib.idle_add]. *)
Inductive callback : Type :=
| ShowStatus (message : string)
| ShowProgress (show : bool)
| LoadInstalledApps
| RefreshCurrentView
| ClearInstalledContainer
| AddInstalledAppCard (app_id name description : string).

Inductive ui_event : Type :=
| IdleAdd (cb : callback)
| Call (cb : callback).

Definition callback_of (ev : ui_event) : callback :=
  match ev with IdleAdd cb | Call cb => cb end.

(** The two pieces of controller state the operations share. *)
Record store : Type := Store {
  installed_apps : gset string;
  current_operations : gmap string string
}.

(** [refresh_current_view] reloads the installed set on every page but
    the store tab (page 0), where it redraws the catalog instead. *)
Definition reloads_installed (current_page : Z) (cb : callback) : bool :=
  match cb with
  | LoadInstalledApps => true
  | RefreshCurrentView => negb (current_page =? 0)
  | _ => false
  end.

Definition triggers_reload (current_page : Z) (events : list ui_event) : bool :=
  existsb (fun ev => reloads_installed current_page (callback_of ev)) events.

(** The messages passed to [show_status], in order. *)
Definition status_messages (events : list ui_event) : list string :=
  omap (fun ev => match callback_of ev with
                  | ShowStatus m => Some m
                  | _ => None
                  end) events.

Definition terminal_status (events : list ui_event) : option string :=
  last (status_messages events).

(** ** Installed-set tracker *)

(** What [subprocess.run([...], check=True)] can do for the list
    subcommand. *)
Inductive list_outcome : Type :=
| ListCalledProcessError (e : string)
| ListRaises (e : string)
| ListReturns (stdout : string).

(** One line of the list output: the body of the [for] loop, with the
    entry it adds if any. *)
Definition installed_entry_of_line (line : string) : option (string * string * string) :=
  if PyStr.nonempty (PyStr.strip line) then
    let parts := PyStr.split PyStr.tab line in
    if (2 <=? length parts)%nat then
      let app_id := nth 0 parts "" in
      let name := if (1 <? length parts)%nat then nth 1 parts "" else app_id in
      let description :=
        if (2 <? length parts)%nat then nth 2 parts "" else no_description in
      Some (app_id, name, description)
    else None
  else None.

Definition installed_entries (stdout : string) : list (string * string * string) :=
  omap installed_entry_of_line (PyStr.split PyStr.newline (PyStr.strip stdout)).

Definition add_entry (st : store * list ui_event) (entry : string * string * string)
  : store * list ui_event :=
  let '(app_id, name, description) := entry in
  (Store ({[app_id]} ∪ installed_apps st.1) (current_operations st.1),
   (st.2 ++ [IdleAdd (AddInstalledAppCard app_id name description)])%list).

(** [load_installed_apps]. *)
Definition load_installed_apps (run : list_outcome) (st : store)
  : store * list ui_event :=
  match run with
  | ListReturns stdout =>
      fold_left add_entry (installed_entries stdout)
        (Store ∅ (current_operations st), [IdleAdd ClearInstalledContainer])
  | ListCalledProcessError e =>
      (st, [IdleAdd (ShowStatus ("Error loading installed apps: " ++ e))])
  | ListRaises e =>
      (st, [IdleAdd (ShowStatus ("Error: " ++ e))])
  end.

(** ** Catalog loader: the fallback through the package manager *)

(** What [subprocess.run] without [check] can do: raise (the binary is
    missing, the timeout expires), or return the finished process. *)
Inductive run_outcome : Type :=
| RunRaises (e : string)
| RunReturns (returncode : Z) (stdout stderr : string).

Definition str_list (l : list string) : pyval := PList (PStr <$> l).

(** The dict with four keys that both loops of the fallback append. *)
Definition fallback_app (app_id name summary : string) (categories : list string) : pyval :=
  PDict (<["flatpakAppId" := PStr app_id]>
        (<["name" := PStr name]>
        (<["summary" := PStr summary]>
        (<["categories" := str_list categories]> ∅)))).

(** One line of the remote-list output: the body of the [for] loop. *)
Definition remote_entry_of_line (line : string) : option pyval :=
  if PyStr.nonempty (PyStr.strip line)
     && PyStr.contains (String PyStr.tab EmptyString) line then
    let parts := PyStr.split PyStr.tab line in
    if (2 <=? length parts)%nat then
      let app_id := nth 0 parts "" in
      let name := if PyStr.nonempty (nth 1 parts "") then nth 1 parts "" else app_id in
      let description :=
        if (2 <? length parts)%nat then nth 2 parts "" else no_description in
      let categories := _guess_category_from_id app_id in
      Some (fallback_app app_id name description categories)
    else None
  else None.

Definition popular_apps : list (string * string * string * list string) :=
  [ ("org.mozilla.firefox", "Firefox", "Web browser", ["Network"]);
    ("org.libreoffice.LibreOffice", "LibreOffice", "Office suite", ["Office"]);
    ("org.gimp.GIMP", "GIMP", "Image editor", ["Graphics"]);
    ("org.videolan.VLC", "VLC", "Media player", ["AudioVideo"]);
    ("org.blender.Blender", "Blender", "3D creation suite", ["Graphics"]);
    ("com.valvesoftware.Steam", "Steam", "Gaming platform", ["Game"]);
    ("org.telegram.desktop", "Telegram", "Messaging app", ["Network"]);
    ("com.spotify.Client", "Spotify", "Music streaming", ["AudioVideo"]);
    ("org.gnome.gedit", "Text Editor", "Simple text editor", ["Utility"]);
    ("org.kde.kate", "Kate", "Advanced text editor", ["Development"]) ].

Definition seed_apps : list pyval :=
  map (fun '(app_id, name, summary, categories) =>
         fallback_app app_id name summary categories) popular_apps.

(** [_load_apps_via_flatpak]: the list returned and the lines printed.
    Both the parsing loop and the seed list sit inside the [try]; the
    handler only prints, and [return apps] follows it. *)
Definition _load_apps_via_flatpak (run : run_outcome) : list pyval * list string :=
  match run with
  | RunRaises e => ([], ["Error in fallback app loading: " ++ e])
  | RunReturns returncode stdout _ =>
      let apps :=
        if returncode =? 0
        then omap remote_entry_of_line
                  (PyStr.split PyStr.newline (PyStr.strip stdout))
        else [] in
      (match apps with [] => seed_apps | _ :: _ => apps end, [])
  end.

(** ** Operation runner *)

(** What [subprocess.Popen] with a piped output can do for [install]:
    raise at launch, or run, yield output lines, and then either raise
    while being read or exit with a code. *)
Inductive popen_outcome : Type :=
| PopenRaises (e : string)
| PopenRuns (lines : list string) (ending : string + Z).

(** [Gtk.ResponseType] of the confirmation dialog of [uninstall]. *)
Inductive response_type : Type :=
| ResponseYes
| ResponseNo
| ResponseDeleteEvent.

Definition begin_operation (app_id label : string) (st : store) : store :=
  Store (installed_apps st) (<[app_id := label]> (current_operations st)).

(** [if app_id in self.current_operations: del self.current_operations[app_id]]. *)
Definition end_operation (app_id : string) (st : store) : store :=
  if bool_decide (is_Some (current_operations st !! app_id))
  then Store (installed_apps st) (delete app_id (current_operations st))
  else st.

Definition status (message : string) : ui_event := IdleAdd (ShowStatus message).

(** The statuses posted while the output of [install] is read. *)
Definition progress_lines (name : string) (lines : list string) : list ui_event :=
  omap (fun line =>
          if PyStr.nonempty (PyStr.strip line)
          then Some (status ("Installing " ++ name ++ ": " ++ PyStr.strip line))
          else None) lines.

(** [install_worker]: the [try] with its two handlers' worth of outcomes,
    then the [finally]. *)
Definition install_worker (popen : popen_outcome) (app_id name : string) (st : store)
  : store * list ui_event :=
  let opening := [Call (ShowProgress true); status ("Installing " ++ name ++ "...")] in
  let '(st, body) :=
    match popen with
    | PopenRaises e => (st, [status ("Error installing " ++ name ++ ": " ++ e)])
    | PopenRuns lines (inl e) =>
        (st, (progress_lines name lines
              ++ [status ("Error installing " ++ name ++ ": " ++ e)])%list)
    | PopenRuns lines (inr returncode) =>
        if returncode =? 0 then
          (Store ({[app_id]} ∪ installed_apps st) (current_operations st),
           (progress_lines name lines
            ++ [status ("Successfully installed " ++ name); IdleAdd LoadInstalledApps])%list)
        else
          (st, (progress_lines name lines
                ++ [status ("Failed to install " ++ name)])%list)
    end in
  (end_operation app_id st,
   (opening ++ body ++ [IdleAdd RefreshCurrentView; IdleAdd (ShowProgress false)])%list).

(** [install_app]: the worker thread is run to its end.  The call
    [self.refresh_current_view()] made before the thread starts is kept as
    the event [Call RefreshCurrentView]: it redraws the store tab, the
    tab the Install button is on. *)
Definition install_app (popen : popen_outcome) (app_id name : string) (st : store)
  : store * list ui_event :=
  let st := begin_operation app_id ("Installing " ++ name ++ "...") st in
  let '(st, events) := install_worker popen app_id name st in
  (st, Call RefreshCurrentView :: events).

Definition uninstall_worker (run : run_outcome) (app_id name : string) (st : store)
  : store * list ui_event :=
  let opening := [Call (ShowProgress true); status ("Uninstalling " ++ name ++ "...")] in
  let '(st, body) :=
    match run with
    | RunRaises e => (st, [status ("Error uninstalling " ++ name ++ ": " ++ e)])
    | RunReturns returncode _ stderr =>
        if returncode =? 0 then
          (Store (installed_apps st ∖ {[app_id]}) (current_operations st),
           [status ("Successfully uninstalled " ++ name); IdleAdd LoadInstalledApps])
        else
          (st, [status ("Failed to uninstall " ++ name ++ ": " ++ stderr)])
    end in
  (end_operation app_id st,
   (opening ++ body ++ [IdleAdd RefreshCurrentView; IdleAdd (ShowProgress false)])%list).

(** [uninstall_app]: nothing happens unless the dialog is answered yes.
    The call [self.refresh_current_view()] made before the thread starts
    is kept as the event [Call RefreshCurrentView]; what it does to the
    installed set when the Installed tab is shown (a reload on the spot)
    is that of [load_installed_apps], and is not folded into the state
    returned here, which is the one the worker leaves when that call only
    redraws. *)
Definition uninstall_app
    (response : response_type) (run : run_outcome) (app_id name : string) (st : store)
  : store * list ui_event :=
  match response with
  | ResponseYes =>
      let st := begin_operation app_id ("Uninstalling " ++ name ++ "...") st in
      let '(st, events) := uninstall_worker run app_id name st in
      (st, Call RefreshCurrentView :: events)
  | _ => (st, [])
  end.

Definition update_worker (run : run_outcome) (app_id name : string) (st : store)
  : store * list ui_event :=
  let opening := [status ("Updating " ++ name ++ "...")] in
  let body :=
    match run with
    | RunRaises e => [status ("Error updating " ++ name ++ ": " ++ e)]
    | RunReturns returncode _ _ =>
        if returncode =? 0
        then [status ("Successfully updated " ++ name)]
        else [status ("No updates available for " ++ name)]
    end in
  (end_operation app_id st, (opening ++ body ++ [IdleAdd LoadInstalledApps])%list).

Definition update_app (run : run_outcome) (app_id name : string) (st : store)
  : store * list ui_event :=
  update_worker run app_id name (begin_operation app_id ("Updating " ++ name ++ "...") st).

(** [update_all_apps]: the reload is the last statement of the [try]
    body, the [finally] only hides the progress bar. *)
Definition update_all_apps (run : run_outcome) (st : store) : store * list ui_event :=
  let opening := [status "Updating all applications..."; IdleAdd (ShowProgress true)] in
  let body :=
    match run with
    | RunRaises e => [status ("Error updating applications: " ++ e)]
    | RunReturns returncode _ _ =>
        [status (if returncode =? 0
                 then "All applications updated successfully"
                 else "Update completed with some issues");
         IdleAdd LoadInstalledApps]
    end in
  (st, (opening ++ body ++ [IdleAdd (ShowProgress false)])%list).

(** [run_app]: launch and forget; [e] is the exception of the launch. *)
Definition run_app (launch_error : option string) (app_id : string) (st : store)
  : store * list ui_event :=
  match launch_error with
  | None => (st, [Call (ShowStatus ("Launched " ++ app_id))])
  | Some e => (st, [Call (ShowStatus ("Error launching " ++ app_id ++ ": " ++ e))])
  end.

(** ** Catalog loader: the two branches together *)

(** What [requests.get] on the catalog endpoint can do: raise, or return
    a response whose [raise_for_status] raises or not and whose [.json()]
    raises or yields a value. *)
Inductive catalog_response : Type :=
| CatalogRaises
| CatalogReturns (status_error : bool) (json : option pyval).

(** The callbacks [load_flathub_apps] hands to [GLib.idle_add]. *)
Inductive loader_event : Type :=
| ShowLoading (show : bool)
| LoaderStatus (message : string)
| DisplayApps.

(** [str(n)] for a length. *)
Definition str_of_nat (n : nat) : string :=
  DecimalString.NilEmpty.string_of_uint (Nat.to_uint n).

(** The inner [try] of [load_flathub_apps]: the catalog of the API, or
    [None] when anything in it raised. *)
Definition api_catalog (api : catalog_response) : option (list pyval) :=
  match api with
  | CatalogReturns false (Some data) => _parse_v2_response data
  | _ => None
  end.

(** [load_flathub_apps]: the new [available_apps], the callbacks queued
    and the lines printed.  The package manager is run only in the
    [except] branch. *)
Definition load_flathub_apps (api : catalog_response) (flatpak : run_outcome)
  : list pyval * list loader_event * list string :=
  let opening := [ShowLoading true; LoaderStatus "Loading applications from Flathub..."] in
  let closing := [ShowLoading false; DisplayApps] in
  match api_catalog api with
  | Some apps =>
      (apps,
       (opening
        ++ [LoaderStatus ("Loaded " ++ str_of_nat (length apps) ++ " applications from API")]
        ++ closing)%list,
       [])
  | None =>
      let '(apps, lines) := _load_apps_via_flatpak flatpak in
      (apps,
       (opening
        ++ [LoaderStatus "API unavailable, using local flatpak search...";
            LoaderStatus ("Loaded " ++ str_of_nat (length apps)
                          ++ " applications via flatpak search")]
        ++ closing)%list,
       lines)
  end.

(** ** Store tab: filtering and display *)

(** [x in v] for a string [x]: membership in a list (by [==]), substring
    of a string, key of a dict; any other JSON value raises. *)
Definition str_in (x : string) (v : pyval) : option bool :=
  match v with
  | PList l =>
      Some (existsb (fun item => match item with
                                 | PStr s => String.eqb x s
                                 | _ => false
                                 end) l)
  | PStr s => Some (PyStr.contains x s)
  | PDict d => Some (bool_decide (is_Some (d !! x)))
  | _ => None
  end.

(** [v.lower()]: only a string has the method. *)
Definition py_lower (v : pyval) : option string :=
  match v with
  | PStr s => Some (PyStr.lower s)
  | _ => None
  end.

(** [app.get(key, "").lower()]. *)
Definition lower_field (app : pyval) (key : string) : option string :=
  match py_get app key (PStr "") with
  | None => None
  | Some v => py_lower v
  end.

(** The category test of the loop body: [Some false] is the [continue]. *)
Definition passes_category (current_category : string) (app : pyval) : option bool :=
  if String.eqb current_category "all" then Some true
  else match py_get app "categories" (PList []) with
       | None => None
       | Some app_categories => str_in current_category app_categories
       end.

(** The search test of the loop body; the three fields are read and
    lower-cased before any of them is tested. *)
Definition passes_search (search_term : string) (app : pyval) : option bool :=
  if PyStr.nonempty search_term then
    let search_lower := PyStr.lower search_term in
    match lower_field app "name" with
    | None => None
    | Some name =>
        match lower_field app "summary" with
        | None => None
        | Some summary =>
            match lower_field app "flatpakAppId" with
            | None => None
            | Some app_id =>
                Some (PyStr.contains search_lower name
                      || PyStr.contains search_lower summary
                      || PyStr.contains search_lower app_id)
            end
        end
    end
  else Some true.

Definition keeps (current_category search_term : string) (app : pyval) : option bool :=
  match passes_category current_category app with
  | None => None
  | Some false => Some false
  | Some true => passes_search search_term app
  end.

(** [filter_apps]: [None] stands for an exception leaving the loop. *)
Fixpoint filter_apps (current_category search_term : string) (available_apps : list pyval)
  : option (list pyval) :=
  match available_apps with
  | [] => Some []
  | app :: rest =>
      match keeps current_category search_term app with
      | None => None
      | Some keep =>
          match filter_apps current_category search_term rest with
          | None => None
          | Some filtered => Some (if keep then app :: filtered else filtered)
          end
      end
  end.



(** The action area of a store card in [add_app_card]: a progress label
    while an operation runs on the package, else Uninstall and Run for an
    installed package, else Install. *)
Inductive card_controls : Type :=
| ProgressControls (label : string)
| UninstallRunButtons
| InstallButton.

Definition card_controls_of (app_id : string) (st : store) : card_controls :=
  match current_operations st !! app_id with
  | Some label => ProgressControls label
  | None =>
      if bool_decide (app_id ∈ installed_apps st)
      then UninstallRunButtons
      else InstallButton
  end.

(** The text of the description label of a card:
    [s[:limit] + "..." if len(s) > limit else s], with the limit 120 on a
    store card and 100 on an installed card. *)
Definition description_label (limit : nat) (s : string) : string :=
  if (limit <? String.length s)%nat
  then substring 0 limit s ++ "..."
  else s.

(** ** Search debounce *)

(** The timeout sources [on_search_changed] creates and removes: the id
    kept in [self.search_timeout] (absent before the first keystroke), the
    sources still pending with the term each will display, and the next
    id the main loop hands out. *)
Record search_state : Type := SearchState {
  search_timeout : option nat;
  pending : gmap nat string;
  next_source : nat
}.

Definition initial_search : search_state := SearchState None ∅ 0.

(** [on_search_changed]: remove the recorded source, add a new one. *)
Definition on_search_changed (text : string) (s : search_state) : search_state :=
  let search_term := PyStr.strip text in
  let remaining :=
    match search_timeout s with
    | Some id => delete id (pending s)
    | None => pending s
    end in
  SearchState (Some (next_source s))
              (<[next_source s := search_term]> remaining)
              (S (next_source s)).

(** A source comes due: its lambda calls [display_apps(term)] and returns
    [None], so the source is dropped; the recorded id stays. *)
Definition timeout_fires (id : nat) (s : search_state) : search_state * option string :=
  match pending s !! id with
  | Some term => (SearchState (search_timeout s) (delete id (pending s)) (next_source s),
                  Some term)
  | None => (s, None)
  end.

Inductive search_input : Type :=
| Typed (text : string)
| Due (id : nat).

(** A run of keystrokes and due timers: the final state and the terms
    [display_apps] was called with, in order. *)
Fixpoint search_run (inputs : list search_input) (s : search_state)
  : search_state * list string :=
  match inputs with
  | [] => (s, [])
  | Typed text :: rest => search_run rest (on_search_changed text s)
  | Due id :: rest =>
      let '(s', shown) := timeout_fires id s in
      let '(s'', later) := search_run rest s' in
      (s'', (match shown with Some term => [term] | None => [] end ++ later)%list)
  end.

(** The invariant of the debounce: a pending source is the recorded one. *)
Definition recorded_only (s : search_state) : Prop :=
  forall id, is_Some (pending s !! id) -> search_timeout s = Some id.

(** ** Media loader *)

(** The name Python prints for the type of a JSON value. *)
Definition type_name (v : pyval) : string :=
  match v with
  | PNone => "NoneType"
  | PBool _ => "bool"
  | PInt _ => "int"
  | PFloat _ _ => "float"
  | PStr _ => "str"
  | PList _ => "list"
  | PDict _ => "dict"
  end.

Section MediaLoader.

Variable pixbuf : Type.
Variable decode_at_scale : list Byte.byte -> Z -> Z -> pixbuf + string.
Variable no_such_file : string.
Variable md5_hexdigest : string -> string.
Variable cache_dir : string.

(** [download_image] called with whatever the detail response held as a
    URL: a false value returns [None] at once, a string is downloaded, and
    any other value raises at [url.encode()]. *)
Definition download_image_value
    (requests_get : string -> image_response)
    (url : pyval) (max_size : Z * Z) (w : world)
  : (option pixbuf * world) + string :=
  if negb (truthy url) then inl (None, w)
  else match url with
       | PStr s =>
           inl (download_image decode_at_scale no_such_file md5_hexdigest cache_dir
                               requests_get s max_size w)
       | _ => inr ("'" ++ type_name url ++ "' object has no attribute 'encode'")
       end.

(** The [for url in urls] loop of [load_worker], left at the first image. *)
Fixpoint first_image
    (requests_get : string -> image_response) (urls : list pyval) (w : world)
  : (option pixbuf * world) + (string * world) :=
  match urls with
  | [] => inl (None, w)
  | url :: rest =>
      match download_image_value requests_get url (400, 180) w with
      | inr e => inr (e, w)
      | inl (Some image, w') => inl (Some image, w')
      | inl (None, w') => first_image requests_get rest w'
      end
  end.

(** [load_worker] of [load_app_media_async]: the image handed to the
    widget, if any, and the world after. *)
Definition load_worker
    (detail_get : string -> detail_response)
    (requests_get : string -> image_response)
    (app_id : string) (screenshot : bool) (w : world)
  : option pixbuf * world :=
  if screenshot then
    match first_image requests_get (get_app_screenshot_urls detail_get app_id) w with
    | inr (e, w') => (None, print ("Error loading media for " ++ app_id ++ ": " ++ e) w')
    | inl (Some image, w') => (Some image, w')
    | inl (None, w') =>
        download_image decode_at_scale no_such_file md5_hexdigest cache_dir
                       requests_get (get_app_icon_url app_id) (128, 128) w'
    end
  else
    download_image decode_at_scale no_such_file md5_hexdigest cache_dir
                   requests_get (get_app_icon_url app_id) (64, 64) w.

End MediaLoader.

Arguments download_image_value {pixbuf} _ _ _ _ _ _ _ _.
Arguments first_image {pixbuf} _ _ _ _ _ _ _.
Arguments load_worker {pixbuf} _ _ _ _ _ _ _ _ _.

(** ** Sample data *)

(** The entry of the catalog API for VLC, without categories. *)
Definition vlc_entry : gmap string pyval :=
  <["id" := PStr "org.videolan.VLC"]>
  (<["name" := PStr "VLC"]>
  (<["summary" := PStr "Media player"]> ∅)).

Definition gimp_app : pyval :=
  fallback_app "org.gimp.GIMP" "GIMP" "Image editor" ["Graphics"].

Definition vlc_app : pyval :=
  fallback_app "org.videolan.VLC" "VLC" "Media player" ["AudioVideo"].



(** A detail response whose first screenshot has a number where its URL
    should be. *)
Definition detail_with_number (url : string) : detail_response :=
  DetailReturns 200 (Some (PDict {[ "screenshots" :=
    PList [PDict {[ "imgDesktopUrl" := PInt 5 ]}] ]})).

(** ** Auxiliary definitions for the statements *)

(** The keys of a normalised record. *)
Definition record_keys : list string :=
  ["flatpakAppId"; "name"; "summary"; "categories"; "icon"; "screenshots"].

(** The id and the card of an installed entry. *)
Definition entry_id (entry : string * string * string) : string := entry.1.1.

Definition entry_card (entry : string * string * string) : ui_event :=
  IdleAdd (AddInstalledAppCard entry.1.1 entry.1.2 entry.2).

(** A detail response with two screenshots. *)
Definition detail_with_two_shots (url : string) : detail_response :=
  DetailReturns 200 (Some (PDict {[ "screenshots" :=
    PList [PDict {[ "imgDesktopUrl" := PStr "https://dl.flathub.org/a.png" ]};
           PDict {[ "imgDesktopUrl" := PStr "https://dl.flathub.org/b.png" ]}] ]})).

(** A stand-in image library and hash for concrete runs: a file decodes
    when it starts with the first byte of the PNG signature. *)
Definition png_only (bytes : list Byte.byte) (width height : Z)
  : list Byte.byte + string :=
  match bytes with
  | Byte.x89 :: _ => inl bytes
  | _ => inr "Couldn't recognize the image file format"
  end.

Definition sample_digest (url : string) : string := "9b2d5b4678781e53038e91ea5324530a".

Definition sample_cache_dir : string := "/home/user/.cache/origami-store".

Definition sample_url : string := "https://dl.flathub.org/media/org.gimp.GIMP.png".

Definition sample_path : string :=
  "/home/user/.cache/origami-store/9b2d5b4678781e53038e91ea5324530a.png".

Definition html_body : list (list Byte.byte) := [[Byte.x3c; Byte.x68]; [Byte.x74]].

Definition png_body : list (list Byte.byte) := [[Byte.x89; Byte.x50]; [Byte.x4e; Byte.x47]].

(** * Properties *)

(** ** Strings *)

Lemma append_cons (c : ascii) (s t : string) : String c s ++ t = String c (s ++ t).
Proof. reflexivity. Qed.

Lemma append_empty (t : string) : "" ++ t = t.
Proof. reflexivity. Qed.

Lemma prefix_spec (needle hay : string) :
  String.prefix needle hay = true <-> exists post, hay = needle ++ post.
Proof.
  revert hay. induction needle as [|c needle IH]; intros hay.
  - destruct hay; simpl; split; eauto.
  - destruct hay as [|c' hay]; simpl.
    + split; [discriminate | intros [post H]; discriminate].
    + destruct (ascii_dec c c') as [->|Hne].
      * rewrite IH. split; intros [post H]; exists post;
          rewrite append_cons in *; congruence.
      * split; [discriminate | intros [post H]; rewrite append_cons in H; congruence].
Qed.

(** [PyStr.contains] is the substring test. *)
Lemma contains_spec (needle hay : string) :
  PyStr.contains needle hay = true <-> exists pre post, hay = pre ++ needle ++ post.
Proof.
  induction hay as [|c hay IH]; cbn [PyStr.contains].
  - rewrite orb_false_r, prefix_spec. split.
    + intros [post H]. exists "", post. exact H.
    + intros [pre [post H]]. destruct pre; [eauto | discriminate].
  - rewrite orb_true_iff, prefix_spec, IH. split.
    + intros [[post H] | [pre [post H]]].
      * exists "", post. exact H.
      * exists (String c pre), post. rewrite append_cons. congruence.
    + intros [pre [post H]]. destruct pre as [|c' pre].
      * left. eauto.
      * right. exists pre, post. rewrite append_cons in H. congruence.
Qed.

Lemma split_nonempty (sep : ascii) (s : string) : PyStr.split sep s <> [].
Proof.
  destruct s as [|c s]; simpl; [discriminate|].
  destruct (Ascii.eqb c sep); [discriminate|].
  destruct (PyStr.split sep s); discriminate.
Qed.

(** A line without the separator splits into itself. *)
Lemma split_no_sep (sep : ascii) (s : string) :
  PyStr.contains (String sep EmptyString) s = false -> PyStr.split sep s = [s].
Proof.
  induction s as [|c s IH]; simpl; [reflexivity|].
  destruct (ascii_dec sep c) as [->|Hne].
  - destruct s; simpl; discriminate.
  - intros H. apply orb_false_elim in H as [_ H].
    rewrite (proj2 (Ascii.eqb_neq c sep)) by congruence.
    rewrite (IH H). reflexivity.
Qed.

(** ** Category guess *)

Lemma any_term_in_false (terms : list string) (s : string) :
  (forall kw, In kw terms -> PyStr.contains kw s = false) ->
  any_term_in terms s = false.
Proof.
  intros H. unfold any_term_in. apply not_true_is_false. intros E.
  apply existsb_exists in E as [kw [Hin Hc]]. rewrite (H kw Hin) in Hc. discriminate.
Qed.

Lemma guess_is_first_match (app_id : string) :
  _guess_category_from_id app_id = [first_matching_category app_id].
Proof.
  unfold _guess_category_from_id, first_matching_category, keyword_rules.
  cbn [find]. unfold rule_matches. cbn [fst snd].
  repeat match goal with
         | |- context [any_term_in ?ts ?s] => destruct (any_term_in ts s); [reflexivity|]
         end.
  reflexivity.
Qed.

(** C6: [_guess_category_from_id] sends [org.mozilla.firefox] to
    [Network] and [org.gimp.GIMP] to [Graphics]; an id whose lower-case
    form contains none of the keywords goes to [Other]; in general the
    result is the category of the first keyword rule that matches. *)
Theorem C6_guess_category :
  _guess_category_from_id "org.mozilla.firefox" = ["Network"]
  /\ _guess_category_from_id "org.gimp.GIMP" = ["Graphics"]
  /\ (forall app_id,
        (forall kw, In kw all_keywords ->
                    PyStr.contains kw (PyStr.lower app_id) = false) ->
        _guess_category_from_id app_id = ["Other"])
  /\ (forall app_id,
        _guess_category_from_id app_id =
        [match find (rule_matches (PyStr.lower app_id)) keyword_rules with
         | Some rule => snd rule
         | None => "Other"
         end]).
Proof.
  split; [reflexivity|]. split; [reflexivity|]. split.
  - intros app_id H. unfold _guess_category_from_id.
    repeat match goal with
           | |- context [any_term_in ?ts ?s] =>
               rewrite (any_term_in_false ts s)
                 by (intros kw Hin; apply H; unfold all_keywords; simpl;
                     simpl in Hin; tauto)
           end.
    reflexivity.
  - intros app_id. apply guess_is_first_match.
Qed.

Lemma C6_guess_category_witness :
  _guess_category_from_id "org.example.App" = ["Other"].
Proof.
  apply (proj1 (proj2 (proj2 C6_guess_category))).
  intros kw Hin. vm_compute in Hin.
  repeat (destruct Hin as [<-|Hin]; [reflexivity|]). destruct Hin.
Defined.

(** ** Screenshot lookup *)

Lemma desktop_urls_one (shot : gmap string pyval) :
  desktop_urls [PDict shot] = Some [dict_get shot "imgDesktopUrl" (PStr "")].
Proof. reflexivity. Qed.

(** Whatever the [try] body returns has exactly one element. *)
Lemma screenshot_try_returned (response : detail_response) (urls : list pyval) :
  screenshot_try response = Returned urls -> length urls = 1%nat.
Proof.
  unfold screenshot_try. intros H.
  destruct response as [|status_code [data|]]; try discriminate;
    (destruct (status_code =? 200); try discriminate).
  destruct data as [| | | | |l|d]; try discriminate. cbn [py_get] in H.
  destruct (dict_get d "screenshots" (PList [])) as [|b|z|m e|s|l|d'];
    cbn [truthy slice_first] in H;
    [ discriminate
    | destruct b; discriminate
    | destruct (negb (z =? 0)); discriminate
    | destruct (negb (m =? 0)); discriminate
    | destruct s as [|c s]; discriminate
    |
    | destruct (negb (bool_decide (d' = ∅))); discriminate ].
  destruct l as [|shot l]; [discriminate|].
  cbn [take desktop_urls] in H.
  destruct (py_get shot "imgDesktopUrl" (PStr "")); [|discriminate].
  injection H as <-. reflexivity.
Qed.

(** C3, as the code has it: on success the result holds the desktop URL
    of the first screenshot entry and nothing else; on a transport error,
    a status other than 200 or a missing [screenshots] field the result is
    the one-element list holding the icon URL of the package; the result
    always has exactly one element. *)
Theorem C3_screenshot_urls_or_icon
    (requests_get : string -> detail_response) (app_id : string) :
  let result := get_app_screenshot_urls requests_get app_id in
  let response := requests_get (detail_url app_id) in
  (forall d shot rest,
      response = DetailReturns 200 (Some (PDict d)) ->
      d !! "screenshots" = Some (PList (PDict shot :: rest)) ->
      result = [dict_get shot "imgDesktopUrl" (PStr "")])
  /\ (response = DetailRaises -> result = [PStr (get_app_icon_url app_id)])
  /\ (forall status_code json,
        response = DetailReturns status_code json -> status_code <> 200 ->
        result = [PStr (get_app_icon_url app_id)])
  /\ (forall d,
        response = DetailReturns 200 (Some (PDict d)) ->
        d !! "screenshots" = None ->
        result = [PStr (get_app_icon_url app_id)])
  /\ length result = 1%nat.
Proof.
  cbn zeta. unfold get_app_screenshot_urls. repeat split.
  - intros d shot rest -> Hs. unfold screenshot_try, py_get, dict_get.
    rewrite Z.eqb_refl, Hs. reflexivity.
  - intros ->. reflexivity.
  - intros status_code json -> Hne. cbn.
    rewrite (proj2 (Z.eqb_neq status_code 200) Hne). reflexivity.
  - intros d -> Hs. cbn. unfold dict_get. rewrite Hs. reflexivity.
  - destruct (screenshot_try (requests_get (detail_url app_id))) eqn:E;
      [exact (screenshot_try_returned _ _ E) | reflexivity | reflexivity].
Qed.

Lemma C3_screenshot_urls_or_icon_witness :
  get_app_screenshot_urls detail_with_two_shots "org.gimp.GIMP"
  = [PStr "https://dl.flathub.org/a.png"].
Proof.
  exact (proj1 (C3_screenshot_urls_or_icon detail_with_two_shots "org.gimp.GIMP")
           _ _ _ eq_refl eq_refl).
Defined.

(** C3 as stated fails: when the request raises, the result is not the
    empty sequence but the icon URL. *)
Lemma C3_failure_is_not_empty :
  get_app_screenshot_urls (fun _ => DetailRaises) "org.gimp.GIMP"
  = [PStr "https://flathub.org/repo/appstream/x86_64/icons/128x128/org.gimp.GIMP.png"]
  /\ get_app_screenshot_urls (fun _ => DetailRaises) "org.gimp.GIMP" <> [].
Proof. split; [reflexivity | discriminate]. Qed.

(** ** Catalog normalisation *)

(** C10: parsing a top-level list and parsing a dict whose [apps] key
    holds the same list give the same result. *)
Theorem C10_list_and_apps_dict_agree (entries : list pyval) :
  _parse_v2_response (PList entries)
  = _parse_v2_response (PDict {[ "apps" := PList entries ]}).
Proof.
  unfold _parse_v2_response. rewrite lookup_singleton_eq. reflexivity.
Qed.

(** The same for any dict that has the list under [apps], whatever its
    other keys. *)
Lemma parse_apps_key (d : gmap string pyval) (entries : list pyval) :
  d !! "apps" = Some (PList entries) ->
  _parse_v2_response (PDict d) = _parse_v2_response (PList entries).
Proof. intros H. unfold _parse_v2_response. rewrite H. reflexivity. Qed.

(** Normalisation of a list of JSON objects never raises, keeps the
    length, and every record it builds has all six keys. *)
Lemma normalize_entry_keys (d : gmap string pyval) :
  exists r, normalize_entry (PDict d) = Some (PDict r)
            /\ Forall (fun k => is_Some (r !! k)) record_keys.
Proof.
  eexists. split; [reflexivity|].
  repeat constructor; simplify_map_eq; eauto.
Qed.

Lemma normalize_all_dicts (ds : list (gmap string pyval)) :
  exists rs, normalize_all (PDict <$> ds) = Some rs /\ length rs = length ds.
Proof.
  induction ds as [|d ds [rs [IH Hlen]]]; [exists []; split; reflexivity|].
  destruct (normalize_entry_keys d) as [r [Hr _]].
  exists (PDict r :: rs). cbn [fmap list_fmap normalize_all].
  change (list_fmap _ _ PDict ds) with (PDict <$> ds).
  rewrite Hr, IH. split; [reflexivity | simpl; congruence].
Qed.

(** The defaults a record gets for the keys its source lacks. *)
Lemma normalize_entry_defaults (d r : gmap string pyval) :
  normalize_entry (PDict d) = Some (PDict r) ->
  (d !! "summary" = None -> d !! "description" = None ->
   r !! "summary" = Some (PStr "No description available"))
  /\ (d !! "categories" = None -> r !! "categories" = Some (PList []))
  /\ (d !! "icon" = None -> r !! "icon" = Some (PStr ""))
  /\ (d !! "screenshots" = None -> r !! "screenshots" = Some (PList []))
  /\ (forall v, d !! "id" = Some v -> d !! "name" = None -> r !! "name" = Some v)
  /\ (d !! "id" = None -> d !! "name" = None -> r !! "name" = Some (PStr "")).
Proof.
  intros H. injection H as <-. unfold dict_get.
  repeat split; intros; simplify_map_eq; reflexivity.
Qed.

(** C4 fails on a record that carries its id under [flatpakAppId] only:
    the record built has that id, and the empty string as its name. *)
Theorem C4_name_not_defaulted_to_flatpakAppId :
  exists r,
    _parse_v2_response (PList [PDict {[ "flatpakAppId" := PStr "org.gimp.GIMP" ]}])
    = Some [PDict r]
    /\ r !! "flatpakAppId" = Some (PStr "org.gimp.GIMP")
    /\ r !! "name" = Some (PStr "").
Proof.
  eexists. split; [reflexivity|]. unfold dict_get.
  split; simplify_map_eq; reflexivity.
Qed.

(** ** Fallback loader *)

(** Whenever the remote-list call returns, with any exit code and any
    output, the fallback has entries: the parsed ones, or the seed list. *)
Lemma load_apps_returned_nonempty (returncode : Z) (stdout stderr : string) :
  (_load_apps_via_flatpak (RunReturns returncode stdout stderr)).1 <> [].
Proof.
  unfold _load_apps_via_flatpak. cbn [fst].
  destruct (if returncode =? 0 then _ else _); discriminate.
Qed.

Lemma load_apps_failed_exit (returncode : Z) (stdout stderr : string) :
  returncode <> 0 ->
  _load_apps_via_flatpak (RunReturns returncode stdout stderr) = (seed_apps, []).
Proof.
  intros H. unfold _load_apps_via_flatpak.
  rewrite (proj2 (Z.eqb_neq returncode 0) H). reflexivity.
Qed.

(** C5 fails when the remote-list call raises: the handler is entered
    before the seed list is reached, and the empty list is returned. *)
Theorem C5_raising_call_returns_empty (e : string) :
  _load_apps_via_flatpak (RunRaises e)
  = ([], ["Error in fallback app loading: " ++ e]).
Proof. reflexivity. Qed.

(** ** Installed-set tracker *)

Lemma fold_add_entry (entries : list (string * string * string))
    (st : store) (events : list ui_event) :
  fold_left add_entry entries (st, events)
  = (Store (list_to_set (entry_id <$> entries) ∪ installed_apps st)
           (current_operations st),
     (events ++ (entry_card <$> entries))%list).
Proof.
  revert st events. induction entries as [|[[app_id name] description] entries IH];
    intros st events.
  - cbn. rewrite app_nil_r. destruct st as [ins ops]. cbn. f_equal. f_equal.
    set_solver.
  - cbn [fold_left add_entry]. rewrite IH. cbn. f_equal.
    + f_equal. unfold entry_id at 2. cbn. set_solver.
    + rewrite <- app_assoc. reflexivity.
Qed.

(** What the loop body does with one line, and the tracker with the
    lines of the stripped output: a non-blank line with at least two
    tab-separated columns yields the entry made of its first column, its
    second column, and its third column or the placeholder when there is
    no third; a line without a tab, or a blank one, yields no entry. *)
Theorem C9_installed_lines :
  (forall line app_id name rest,
      PyStr.nonempty (PyStr.strip line) = true ->
      PyStr.split PyStr.tab line = app_id :: name :: rest ->
      installed_entry_of_line line
      = Some (app_id, name, match rest with
                            | [] => "No description available"
                            | description :: _ => description
                            end))
  /\ (forall line,
        PyStr.contains (String PyStr.tab EmptyString) line = false ->
        installed_entry_of_line line = None)
  /\ (forall line,
        PyStr.nonempty (PyStr.strip line) = false ->
        installed_entry_of_line line = None)
  /\ (forall stdout st,
        let entries :=
          omap installed_entry_of_line
               (PyStr.split PyStr.newline (PyStr.strip stdout)) in
        load_installed_apps (ListReturns stdout) st
        = (Store (list_to_set (entry_id <$> entries)) (current_operations st),
           IdleAdd ClearInstalledContainer :: (entry_card <$> entries))).
Proof.
  repeat split.
  - intros line app_id name rest Hn Hs. unfold installed_entry_of_line.
    rewrite Hn, Hs. destruct rest; reflexivity.
  - intros line Hc. unfold installed_entry_of_line.
    rewrite (split_no_sep _ _ Hc). destruct (PyStr.nonempty _); reflexivity.
  - intros line Hn. unfold installed_entry_of_line. rewrite Hn. reflexivity.
  - intros stdout st entries. unfold load_installed_apps.
    fold (installed_entries stdout). change (installed_entries stdout) with entries.
    rewrite fold_add_entry. cbn. f_equal. f_equal. set_solver.
Qed.

Lemma C9_installed_lines_witness :
  installed_entry_of_line ("org.gimp.GIMP" ++ String PyStr.tab "GIMP")
  = Some ("org.gimp.GIMP", "GIMP", "No description available").
Proof.
  exact (proj1 C9_installed_lines ("org.gimp.GIMP" ++ String PyStr.tab "GIMP")
           "org.gimp.GIMP" "GIMP" [] eq_refl eq_refl).
Defined.

(** A line with the id alone produces no entry: nothing is added to the
    set and no card is queued. *)
Lemma C9_line_without_name_is_dropped :
  installed_entry_of_line "org.gimp.GIMP" = None
  /\ load_installed_apps (ListReturns "org.gimp.GIMP") (Store ∅ ∅)
     = (Store ∅ ∅, [IdleAdd ClearInstalledContainer]).
Proof. split; reflexivity. Qed.

(** C9 fails where the name column is missing: the name is never
    defaulted to the id.  An output that is the id alone, or the id
    followed by two empty columns (which the strip of the whole output
    removes), gives no entry, no card and an empty installed set, the
    [else app_id] of the name being out of reach under
    [len(parts) >= 2]; a line whose name column is empty and whose
    description is not gives an entry with the empty name.  The
    description of a two-column line does default to the placeholder. *)
Theorem C9_missing_name_is_not_defaulted :
  installed_entries "org.gimp.GIMP" = []
  /\ installed_entries
       ("org.gimp.GIMP"
        ++ String PyStr.tab (String PyStr.tab (String PyStr.newline "")))
     = []
  /\ load_installed_apps (ListReturns "org.gimp.GIMP") (Store ∅ ∅)
     = (Store ∅ ∅, [IdleAdd ClearInstalledContainer])
  /\ installed_entries
       ("org.gimp.GIMP" ++ String PyStr.tab (String PyStr.tab "Image editor"))
     = [("org.gimp.GIMP", "", "Image editor")]
  /\ installed_entries ("org.gimp.GIMP" ++ String PyStr.tab "GIMP")
     = [("org.gimp.GIMP", "GIMP", "No description available")].
Proof. repeat split; reflexivity. Qed.

(** ** Image cache *)

Section ImageCacheFacts.

Context {pixbuf : Type}.
Variable decode_at_scale : list Byte.byte -> Z -> Z -> pixbuf + string.
Variable no_such_file : string.
Variable md5_hexdigest : string -> string.
Variable cache_dir : string.
Variable requests_get : string -> image_response.

Local Abbreviation cache_path := (cache_path_of md5_hexdigest cache_dir).
Local Abbreviation download := (download_image decode_at_scale no_such_file
                        md5_hexdigest cache_dir requests_get).
Local Abbreviation fetch := (fetch_and_store decode_at_scale no_such_file requests_get).

Lemma nonempty_true (s : string) : s <> "" -> PyStr.nonempty s = true.
Proof. destruct s; [congruence | reflexivity]. Qed.

Lemma exists_true (path : string) (w : world) (bytes : list Byte.byte) :
  files w !! path = Some bytes -> os_path_exists path w = true.
Proof. intros H. unfold os_path_exists. rewrite H. apply bool_decide_eq_true. eauto. Qed.

Lemma exists_false (path : string) (w : world) :
  files w !! path = None -> os_path_exists path w = false.
Proof.
  intros H. unfold os_path_exists. rewrite H. apply bool_decide_eq_false.
  intros [x Hx]. discriminate.
Qed.

(** An empty URL is refused before anything is touched. *)
Lemma download_empty_url (max_size : Z * Z) (w : world) :
  download "" max_size w = (None, w).
Proof. reflexivity. Qed.

(** A cache hit: the decoded file is returned and nothing is requested. *)
Lemma download_hit (url : string) (max_size : Z * Z) (w : world)
    (bytes : list Byte.byte) (image : pixbuf) :
  url <> "" ->
  files w !! cache_path url = Some bytes ->
  decode_at_scale bytes max_size.1 max_size.2 = inl image ->
  download url max_size w = (Some image, w).
Proof.
  intros Hu Hf Hd. unfold download_image.
  rewrite (nonempty_true _ Hu). cbn [negb].
  rewrite (exists_true _ _ _ Hf). unfold new_from_file_at_scale.
  cbn [fst snd] in *. rewrite Hf, Hd. reflexivity.
Qed.

(** What the request-save-decode step does, outcome by outcome. *)
Lemma fetch_outcomes (url : string) (max_size : Z * Z) (path : string) (w : world) :
  let r := fetch url max_size path w in
  requests_sent r.2 = (requests_sent w ++ [url])%list
  /\ r.1 = match requests_get url with
           | GetReturns None chunks None =>
               match decode_at_scale (concat chunks) max_size.1 max_size.2 with
               | inl image => Some image
               | inr _ => None
               end
           | _ => None
           end
  /\ files r.2 = match requests_get url with
                 | GetReturns None chunks _ => <[path := concat chunks]> (files w)
                 | _ => files w
                 end.
Proof.
  cbn zeta. unfold fetch_and_store.
  destruct (requests_get url) as [e|[e|] chunks [e'|]]; cbn; try (repeat split; reflexivity).
  unfold new_from_file_at_scale. cbn. rewrite lookup_insert_eq.
  destruct (decode_at_scale (concat chunks) max_size.1 max_size.2);
    repeat split; reflexivity.
Qed.

(** C1: when the cache file of a URL exists and does not decode, one
    call removes it and goes on, in that call, through the network
    path from the world without the file: the request is sent, the
    result is the decoding of the body just written (never of the old
    bytes), and the cache holds the new body, or nothing if the request
    failed. *)
Theorem C1_corrupt_cache_is_removed_and_refetched
    (url : string) (max_size : Z * Z) (w : world)
    (stale : list Byte.byte) (e : string) :
  url <> "" ->
  files w !! cache_path url = Some stale ->
  decode_at_scale stale max_size.1 max_size.2 = inr e ->
  let r := download url max_size w in
  r = fetch url max_size (cache_path url) (os_remove (cache_path url) w)
  /\ files (os_remove (cache_path url) w) !! cache_path url = None
  /\ requests_sent r.2 = (requests_sent w ++ [url])%list
  /\ r.1 = match requests_get url with
           | GetReturns None chunks None =>
               match decode_at_scale (concat chunks) max_size.1 max_size.2 with
               | inl image => Some image
               | inr _ => None
               end
           | _ => None
           end
  /\ files r.2 !! cache_path url
     = match requests_get url with
       | GetReturns None chunks _ => Some (concat chunks)
       | _ => None
       end.
Proof.
  intros Hu Hf Hd r.
  assert (Hr : r = fetch url max_size (cache_path url) (os_remove (cache_path url) w)).
  { subst r. unfold download_image.
    rewrite (nonempty_true _ Hu). cbn [negb].
    rewrite (exists_true _ _ _ Hf). unfold new_from_file_at_scale at 1.
    cbn [fst snd] in *. rewrite Hf, Hd. reflexivity. }
  split; [exact Hr|]. split; [apply lookup_delete_eq|].
  destruct (fetch_outcomes url max_size (cache_path url)
              (os_remove (cache_path url) w)) as (Hreq & Hres & Hfiles).
  rewrite <- Hr in Hreq, Hres, Hfiles.
  split; [exact Hreq|]. split; [exact Hres|].
  rewrite Hfiles.
  destruct (requests_get url) as [e0|[e0|] chunks se]; cbn.
  - apply lookup_delete_eq.
  - apply lookup_delete_eq.
  - apply lookup_insert_eq.
Qed.

(** C2, as the code has it: on the miss path every network or decode
    error gives [None] and one printed line.  The files are untouched
    when the request raises or its status is an error; once the body is
    being saved, a failure of the stream or of the decoding leaves the
    bytes received in the cache file. *)
Theorem C2_miss_path_errors
    (url : string) (max_size : Z * Z) (w : world) :
  url <> "" ->
  files w !! cache_path url = None ->
  let r := download url max_size w in
  (forall e, requests_get url = GetRaises e ->
     r.1 = None /\ files r.2 = files w
     /\ printed r.2 = (printed w ++ [download_error url e])%list)
  /\ (forall e chunks stream_error,
        requests_get url = GetReturns (Some e) chunks stream_error ->
        r.1 = None /\ files r.2 = files w
        /\ printed r.2 = (printed w ++ [download_error url e])%list)
  /\ (forall e chunks,
        requests_get url = GetReturns None chunks (Some e) ->
        r.1 = None /\ files r.2 = <[cache_path url := concat chunks]> (files w)
        /\ printed r.2 = (printed w ++ [download_error url e])%list)
  /\ (forall e chunks,
        requests_get url = GetReturns None chunks None ->
        decode_at_scale (concat chunks) max_size.1 max_size.2 = inr e ->
        r.1 = None /\ files r.2 = <[cache_path url := concat chunks]> (files w)
        /\ printed r.2 = (printed w ++ [download_error url e])%list).
Proof.
  intros Hu Hf r.
  assert (Hr : r = fetch url max_size (cache_path url) w).
  { subst r. unfold download_image.
    rewrite (nonempty_true _ Hu). cbn [negb].
    rewrite (exists_false _ _ Hf). reflexivity. }
  rewrite Hr. unfold fetch_and_store. repeat split.
  all: try (rewrite H; reflexivity).
  all: rewrite H; unfold new_from_file_at_scale; cbn;
    rewrite lookup_insert_eq; cbn in H0; rewrite H0; reflexivity.
Qed.

End ImageCacheFacts.

Lemma C1_corrupt_cache_is_removed_and_refetched_witness :
  let w := World {[ sample_path := [Byte.x00] ]} [] [] in
  let r := download_image png_only "No such file" sample_digest sample_cache_dir
             (fun _ => GetReturns None png_body None) sample_url (400, 200) w in
  r.1 = Some [Byte.x89; Byte.x50; Byte.x4e; Byte.x47]
  /\ requests_sent r.2 = [sample_url]
  /\ files r.2 !! sample_path = Some [Byte.x89; Byte.x50; Byte.x4e; Byte.x47].
Proof.
  intros w r.
  destruct (C1_corrupt_cache_is_removed_and_refetched png_only "No such file"
              sample_digest sample_cache_dir (fun _ => GetReturns None png_body None)
              sample_url (400, 200) w [Byte.x00]
              "Couldn't recognize the image file format")
    as (_ & _ & Hreq & Hres & Hfiles).
  - discriminate.
  - reflexivity.
  - reflexivity.
  - exact (conj Hres (conj Hreq Hfiles)).
Defined.

Lemma C2_miss_path_errors_witness :
  let w := World ∅ [] [] in
  let r := download_image png_only "No such file" sample_digest sample_cache_dir
             (fun _ => GetRaises "timed out") sample_url (400, 200) w in
  r.1 = None /\ files r.2 = files w
  /\ printed r.2 = [download_error sample_url "timed out"].
Proof.
  intros w r.
  refine (proj1 (C2_miss_path_errors png_only "No such file" sample_digest
                   sample_cache_dir (fun _ => GetRaises "timed out")
                   sample_url (400, 200) w _ _) "timed out" eq_refl).
  - discriminate.
  - reflexivity.
Defined.

(** C2 as stated fails: a body that arrives whole and does not decode
    gives [None], and the cache, empty before, holds the body after. *)
Lemma C2_undecodable_body_is_kept :
  let w := World ∅ [] [] in
  let r := download_image png_only "No such file" sample_digest sample_cache_dir
             (fun _ => GetReturns None html_body None) sample_url (400, 200) w in
  r.1 = None
  /\ files w !! sample_path = None
  /\ files r.2 !! sample_path = Some [Byte.x3c; Byte.x68; Byte.x74]
  /\ files r.2 <> files w.
Proof.
  intros w r. split; [reflexivity|]. split; [reflexivity|]. split; [reflexivity|].
  intros H. apply (f_equal (fun m => m !! sample_path)) in H. discriminate H.
Qed.

(** ** Operation runner *)

Lemma end_operation_clears (app_id : string) (st : store) :
  current_operations (end_operation app_id st) !! app_id = None.
Proof.
  unfold end_operation. case_bool_decide as H; cbn.
  - apply lookup_delete_eq.
  - apply eq_None_not_Some. exact H.
Qed.

Lemma end_operation_installed (app_id : string) (st : store) :
  installed_apps (end_operation app_id st) = installed_apps st.
Proof. unfold end_operation. case_bool_decide; reflexivity. Qed.

Lemma status_messages_app (xs ys : list ui_event) :
  status_messages (xs ++ ys) = (status_messages xs ++ status_messages ys)%list.
Proof. apply omap_app. Qed.

(** The last status of a run of events is the one after which only other
    callbacks follow. *)
Lemma terminal_status_of (before after : list ui_event) (message : string) :
  status_messages after = [] ->
  terminal_status (before ++ status message :: after)%list = Some message.
Proof.
  intros H. unfold terminal_status.
  rewrite status_messages_app.
  change (status_messages (status message :: after))
    with (message :: status_messages after).
  rewrite H. apply last_snoc.
Qed.

Ltac terminal :=
  cbn [fst snd]; rewrite <- ?app_assoc; cbn [app];
  first [ apply (terminal_status_of (_ :: _ :: _ :: progress_lines _ _)); reflexivity
        | apply (terminal_status_of [_; _; _]); reflexivity
        | apply (terminal_status_of [_; _]); reflexivity
        | apply (terminal_status_of [_]); reflexivity ].

(** C7: [install], [uninstall] (once confirmed) and [update] end, on a
    zero exit, a non-zero exit and an exception of the subprocess call
    alike, with no entry for the package in [current_operations] and with
    the success or failure text as the last status posted. *)
Theorem C7_operation_cleanup (app_id name : string) (st : store) :
  (forall popen,
      let r := install_app popen app_id name st in
      current_operations r.1 !! app_id = None
      /\ terminal_status r.2
         = Some match popen with
                | PopenRaises e | PopenRuns _ (inl e) =>
                    "Error installing " ++ name ++ ": " ++ e
                | PopenRuns _ (inr returncode) =>
                    if returncode =? 0
                    then "Successfully installed " ++ name
                    else "Failed to install " ++ name
                end)
  /\ (forall run,
        let r := uninstall_app ResponseYes run app_id name st in
        current_operations r.1 !! app_id = None
        /\ terminal_status r.2
           = Some match run with
                  | RunRaises e => "Error uninstalling " ++ name ++ ": " ++ e
                  | RunReturns returncode _ stderr =>
                      if returncode =? 0
                      then "Successfully uninstalled " ++ name
                      else "Failed to uninstall " ++ name ++ ": " ++ stderr
                  end)
  /\ (forall run,
        let r := update_app run app_id name st in
        current_operations r.1 !! app_id = None
        /\ terminal_status r.2
           = Some match run with
                  | RunRaises e => "Error updating " ++ name ++ ": " ++ e
                  | RunReturns returncode _ _ =>
                      if returncode =? 0
                      then "Successfully updated " ++ name
                      else "No updates available for " ++ name
                  end).
Proof.
  split; [|split].
  - intros popen r. subst r. unfold install_app, install_worker.
    destruct popen as [e|lines [e|returncode]];
      [ | | destruct (returncode =? 0)];
      (split; [apply end_operation_clears | terminal]).
  - intros run r. subst r. unfold uninstall_app, uninstall_worker.
    destruct run as [e|returncode stdout stderr];
      [ | destruct (returncode =? 0)];
      (split; [apply end_operation_clears | terminal]).
  - intros run r. subst r. unfold update_app, update_worker.
    destruct run as [e|returncode stdout stderr];
      [ | destruct (returncode =? 0)];
      (split; [apply end_operation_clears | terminal]).
Qed.

(** A declined [uninstall] starts nothing. *)
Lemma uninstall_declined (response : response_type) (run : run_outcome)
    (app_id name : string) (st : store) :
  response <> ResponseYes -> uninstall_app response run app_id name st = (st, []).
Proof. destruct response; [congruence | reflexivity | reflexivity]. Qed.

Lemma progress_lines_are_statuses (name : string) (lines : list string) (ev : ui_event) :
  In ev (progress_lines name lines) -> exists message, ev = status message.
Proof.
  unfold progress_lines. rewrite <- list_elem_of_In, list_elem_of_omap.
  intros [line [_ H]]. destruct (PyStr.nonempty _); [|discriminate].
  injection H as <-. eauto.
Qed.

Lemma progress_lines_no_reload (page : Z) (name : string) (lines : list string) :
  triggers_reload page (progress_lines name lines) = false.
Proof.
  apply not_true_is_false. intros H. unfold triggers_reload in H.
  apply existsb_exists in H as [ev [Hin Hev]].
  apply progress_lines_are_statuses in Hin as [message ->]. discriminate.
Qed.

Lemma triggers_reload_app (page : Z) (xs ys : list ui_event) :
  triggers_reload page (xs ++ ys)
  = triggers_reload page xs || triggers_reload page ys.
Proof. apply existsb_app. Qed.

Lemma triggers_reload_cons (page : Z) (ev : ui_event) (evs : list ui_event) :
  triggers_reload page (ev :: evs)
  = reloads_installed page (callback_of ev) || triggers_reload page evs.
Proof. reflexivity. Qed.

Lemma triggers_reload_nil (page : Z) : triggers_reload page [] = false.
Proof. reflexivity. Qed.

Ltac reload_value page :=
  repeat (rewrite triggers_reload_app || rewrite triggers_reload_cons
          || rewrite progress_lines_no_reload || rewrite triggers_reload_nil);
  cbn [reloads_installed callback_of status];
  destruct (Z.eqb_spec page 0); cbn [negb orb].

Ltac membership :=
  repeat (rewrite in_app_iff in * || cbn [In] in * );
  intuition (try discriminate; eauto);
  repeat match goal with
         | H : In _ (progress_lines _ _) |- _ =>
             apply progress_lines_are_statuses in H as [? ?]
         | H : ex _ |- _ => destruct H
         end;
  try discriminate; try congruence.

(** C8, as the code has it: [update] queues a reload of the installed
    set on every outcome, and [updateAll] whenever the subprocess call
    returns, with any exit code.  [install] and [uninstall] queue the
    reload exactly when the exit code is zero; on every outcome they
    queue a refresh of the current view, which reloads the installed set
    only when the view is not the store tab. *)
Theorem C8_reload_scheduling (app_id name : string) (st : store) :
  (forall run, In (IdleAdd LoadInstalledApps) (update_app run app_id name st).2)
  /\ (forall returncode stdout stderr,
        In (IdleAdd LoadInstalledApps)
           (update_all_apps (RunReturns returncode stdout stderr) st).2)
  /\ (forall popen,
        let events := (install_app popen app_id name st).2 in
        In (IdleAdd RefreshCurrentView) events
        /\ (In (IdleAdd LoadInstalledApps) events
            <-> exists lines, popen = PopenRuns lines (inr 0))
        /\ (forall page,
              triggers_reload page events = true
              <-> page <> 0 \/ exists lines, popen = PopenRuns lines (inr 0)))
  /\ (forall run,
        let events := (uninstall_app ResponseYes run app_id name st).2 in
        In (IdleAdd RefreshCurrentView) events
        /\ (In (IdleAdd LoadInstalledApps) events
            <-> exists stdout stderr, run = RunReturns 0 stdout stderr)
        /\ (forall page,
              triggers_reload page events = true
              <-> page <> 0 \/ exists stdout stderr, run = RunReturns 0 stdout stderr)).
Proof.
  split; [|split; [|split]].
  - intros [e|returncode stdout stderr]; unfold update_app, update_worker;
      cbn [snd]; membership.
  - intros returncode stdout stderr. unfold update_all_apps. cbn [snd]. membership.
  - intros popen events. subst events. unfold install_app, install_worker.
    destruct popen as [e|lines [e|returncode]];
      [ | | destruct (Z.eqb_spec returncode 0) as [->|Hne]];
      cbn [fst snd]; (split; [membership|]); (split; [split; membership|]);
      intros page; reload_value page; split; intros; membership.
  - intros run events. subst events. unfold uninstall_app, uninstall_worker.
    destruct run as [e|returncode stdout stderr];
      [ | destruct (Z.eqb_spec returncode 0) as [->|Hne]];
      cbn [fst snd]; (split; [membership|]); (split; [split; membership|]);
      intros page; reload_value page; split; intros; membership.
Qed.

(** C8 as stated fails: an [install] that exits with a non-zero code
    while the store tab is shown queues a refresh of that view and no
    reload of the installed set. *)
Lemma C8_failed_install_queues_no_reload :
  let r := install_app (PopenRuns [] (inr 1)) "org.gimp.GIMP" "GIMP" (Store ∅ ∅) in
  r.2 = [Call RefreshCurrentView; Call (ShowProgress true);
         status "Installing GIMP..."; status "Failed to install GIMP";
         IdleAdd RefreshCurrentView; IdleAdd (ShowProgress false)]
  /\ ~ In (IdleAdd LoadInstalledApps) r.2
  /\ triggers_reload 0 r.2 = false.
Proof.
  cbn zeta. split; [reflexivity|]. split; [|reflexivity].
  cbn. intuition discriminate.
Qed.

(** [updateAll] reaches its reload only when the subprocess call
    returns. *)
Lemma update_all_raising (e : string) (st : store) (page : Z) :
  update_all_apps (RunRaises e) st
  = (st, [status "Updating all applications..."; IdleAdd (ShowProgress true);
          status ("Error updating applications: " ++ e);
          IdleAdd (ShowProgress false)])
  /\ triggers_reload page (update_all_apps (RunRaises e) st).2 = false.
Proof. split; reflexivity. Qed.

(** [run] posts its status directly and never touches the installed set
    or the operations in flight. *)
Lemma run_app_no_reload (launch_error : option string) (app_id : string)
    (st : store) (page : Z) :
  (run_app launch_error app_id st).1 = st
  /\ triggers_reload page (run_app launch_error app_id st).2 = false.
Proof. destruct launch_error; split; reflexivity. Qed.

(** * Further properties *)

(** ** Image cache: hits, footprint, what a success leaves behind *)

Section ImageCacheMore.

Context {pixbuf : Type}.
Variable decode_at_scale : list Byte.byte -> Z -> Z -> pixbuf + string.
Variable no_such_file : string.
Variable md5_hexdigest : string -> string.
Variable cache_dir : string.

Local Abbreviation cache_path := (cache_path_of md5_hexdigest cache_dir).
Local Abbreviation download := (download_image decode_at_scale no_such_file
                                  md5_hexdigest cache_dir).
Local Abbreviation fetch := (fetch_and_store decode_at_scale no_such_file).

Lemma nonempty_false (s : string) : PyStr.nonempty s = false -> s = "".
Proof. destruct s; [reflexivity | discriminate]. Qed.

Lemma download_unfold
    (requests_get : string -> image_response)
    (url : string) (max_size : Z * Z) (w : world) :
  download requests_get url max_size w
  = if PyStr.nonempty url then
      match files w !! cache_path url with
      | Some bytes =>
          match decode_at_scale bytes max_size.1 max_size.2 with
          | inl image => (Some image, w)
          | inr _ => fetch requests_get url max_size (cache_path url)
                           (os_remove (cache_path url) w)
          end
      | None => fetch requests_get url max_size (cache_path url) w
      end
    else (None, w).
Proof.
  unfold download_image. destruct (PyStr.nonempty url); [|reflexivity]. cbn [negb].
  destruct (files w !! cache_path url) as [bytes|] eqn:Hf.
  - rewrite (exists_true _ _ _ Hf). unfold new_from_file_at_scale. rewrite Hf.
    reflexivity.
  - rewrite (exists_false _ _ Hf). reflexivity.
Qed.

(** The three ways a call can end, with the world each leaves. *)
Lemma download_cases
    (requests_get : string -> image_response)
    (url : string) (max_size : Z * Z) (w : world) :
  let r := download requests_get url max_size w in
  (url = "" /\ r = (None, w))
  \/ (exists bytes image,
        files w !! cache_path url = Some bytes
        /\ decode_at_scale bytes max_size.1 max_size.2 = inl image
        /\ r = (Some image, w))
  \/ (url <> ""
      /\ requests_sent r.2 = (requests_sent w ++ [url])%list
      /\ (forall path, path <> cache_path url -> files r.2 !! path = files w !! path)
      /\ (exists lines, printed r.2 = (printed w ++ lines)%list /\ (length lines <= 1)%nat)
      /\ (forall image, r.1 = Some image ->
            exists bytes, files r.2 !! cache_path url = Some bytes
                          /\ decode_at_scale bytes max_size.1 max_size.2 = inl image)).
Proof.
  cbn zeta. rewrite download_unfold.
  destruct (PyStr.nonempty url) eqn:Hu.
  2:{ left. split; [apply nonempty_false, Hu | reflexivity]. }
  assert (Hne : url <> "") by (intros ->; discriminate).
  assert (Hfetch : forall w0,
            (forall path, path <> cache_path url -> files w0 !! path = files w !! path) ->
            requests_sent w0 = requests_sent w -> printed w0 = printed w ->
            let r := fetch requests_get url max_size (cache_path url) w0 in
            requests_sent r.2 = (requests_sent w ++ [url])%list
            /\ (forall path, path <> cache_path url -> files r.2 !! path = files w !! path)
            /\ (exists lines, printed r.2 = (printed w ++ lines)%list /\ (length lines <= 1)%nat)
            /\ (forall image, r.1 = Some image ->
                  exists bytes, files r.2 !! cache_path url = Some bytes
                                /\ decode_at_scale bytes max_size.1 max_size.2 = inl image)).
  { intros w0 Hframe Hreq Hpr. cbn zeta. unfold fetch_and_store.
    destruct (requests_get url) as [e|[e|] chunks stream_error];
      [ | | destruct stream_error as [e'|]]; cbn.
    - rewrite Hreq, Hpr. repeat split; [exact Hframe | eexists [_]; split; [reflexivity | cbn; lia] | discriminate].
    - rewrite Hreq, Hpr. repeat split; [exact Hframe | eexists [_]; split; [reflexivity | cbn; lia] | discriminate].
    - rewrite Hreq, Hpr. repeat split;
        [ intros path Hp; rewrite lookup_insert_ne by congruence; apply Hframe, Hp
        | eexists [_]; split; [reflexivity | cbn; lia] | discriminate].
    - unfold new_from_file_at_scale. cbn. rewrite lookup_insert_eq.
      destruct (decode_at_scale (concat chunks) max_size.1 max_size.2) as [image|e] eqn:Hd;
        cbn; rewrite Hreq, Hpr.
      + split; [reflexivity|]. split; [|split].
        * intros path Hp. rewrite lookup_insert_ne by congruence. apply Hframe, Hp.
        * exists []. split; [rewrite app_nil_r; reflexivity | cbn; lia].
        * intros image' [= <-]. exists (concat chunks).
          split; [apply lookup_insert_eq | exact Hd].
      + split; [reflexivity|]. split; [|split].
        * intros path Hp. rewrite lookup_insert_ne by congruence. apply Hframe, Hp.
        * eexists [_]. split; [reflexivity | cbn; lia].
        * discriminate. }
  destruct (files w !! cache_path url) as [bytes|] eqn:Hf.
  - destruct (decode_at_scale bytes max_size.1 max_size.2) as [image|e] eqn:Hd.
    + right. left. exists bytes, image. auto.
    + right. right. split; [exact Hne|].
      apply Hfetch; [|reflexivity|reflexivity].
      intros path Hp. cbn. apply lookup_delete_ne. congruence.
  - right. right. split; [exact Hne|]. apply Hfetch; auto.
Qed.

(** X1: once a call has returned an image, calling again with the same
    URL and size returns the same image from the cache: no request is
    sent and nothing changes, whatever the network would answer. *)
Theorem download_again_is_a_hit
    (requests_get requests_get' : string -> image_response)
    (url : string) (max_size : Z * Z) (w w' : world) (image : pixbuf) :
  download requests_get url max_size w = (Some image, w') ->
  download requests_get' url max_size w' = (Some image, w').
Proof.
  intros H.
  destruct (download_cases requests_get url max_size w)
    as [[_ Hr] | [(bytes & image0 & Hf & Hd & Hr) | (Hne & _ & _ & _ & Hsome)]];
    cbn zeta in *; rewrite H in *.
  - discriminate.
  - injection Hr as -> ->. eapply download_hit; eauto. intros ->.
    unfold download_image in H. cbn in H. discriminate.
  - destruct (Hsome image eq_refl) as (bytes & Hf & Hd). cbn [snd] in Hf.
    eapply download_hit; eauto.
Qed.

(** X2: a call touches no file but the cache file of its URL, sends at
    most one request, and that one to the URL, and prints at most one
    line. *)
Theorem download_footprint
    (requests_get : string -> image_response)
    (url : string) (max_size : Z * Z) (w : world) :
  let r := download requests_get url max_size w in
  (forall path, path <> cache_path url -> files r.2 !! path = files w !! path)
  /\ (requests_sent r.2 = requests_sent w
      \/ requests_sent r.2 = (requests_sent w ++ [url])%list)
  /\ (exists lines, printed r.2 = (printed w ++ lines)%list /\ (length lines <= 1)%nat).
Proof.
  destruct (download_cases requests_get url max_size w)
    as [[_ Hr] | [(bytes & image0 & Hf & Hd & Hr) | (Hne & Hreq & Hframe & Hpr & _)]];
    cbn zeta in *.
  - rewrite Hr. cbn. repeat split; auto. exists []. rewrite app_nil_r. auto.
  - rewrite Hr. cbn. repeat split; auto. exists []. rewrite app_nil_r. auto.
  - auto.
Qed.

(** X3: an image is only ever returned out of the cache file: after a
    call that returned one, the cache file of the URL exists and decodes,
    at the size asked for, to that image. *)
Theorem download_success_is_cached
    (requests_get : string -> image_response)
    (url : string) (max_size : Z * Z) (w : world) (image : pixbuf) :
  (download requests_get url max_size w).1 = Some image ->
  exists bytes,
    files (download requests_get url max_size w).2 !! cache_path url = Some bytes
    /\ decode_at_scale bytes max_size.1 max_size.2 = inl image.
Proof.
  intros H.
  destruct (download_cases requests_get url max_size w)
    as [[_ Hr] | [(bytes & image0 & Hf & Hd & Hr) | (_ & _ & _ & _ & Hsome)]];
    cbn zeta in *.
  - rewrite Hr in H. discriminate.
  - rewrite Hr in *. cbn in *. injection H as <-. eauto.
  - apply Hsome, H.
Qed.

End ImageCacheMore.

Lemma download_again_is_a_hit_witness :
  let w := World ∅ [] [] in
  let w' := World {[ sample_path := [Byte.x89; Byte.x50; Byte.x4e; Byte.x47] ]}
                  [sample_url] [] in
  download_image png_only "No such file" sample_digest sample_cache_dir
    (fun _ => GetRaises "timed out") sample_url (400, 200) w'
  = (Some [Byte.x89; Byte.x50; Byte.x4e; Byte.x47], w').
Proof.
  intros w w'.
  apply (download_again_is_a_hit png_only "No such file" sample_digest sample_cache_dir
           (fun _ => GetReturns None png_body None) (fun _ => GetRaises "timed out")
           sample_url (400, 200) w w').
  reflexivity.
Defined.

Lemma download_footprint_witness :
  let w := World {[ "/etc/passwd" := [Byte.x72] ]} [] [] in
  files (download_image png_only "No such file" sample_digest sample_cache_dir
           (fun _ => GetReturns None html_body None) sample_url (400, 200) w).2
    !! "/etc/passwd" = Some [Byte.x72].
Proof.
  intros w.
  apply (proj1 (download_footprint png_only "No such file" sample_digest sample_cache_dir
                  (fun _ => GetReturns None html_body None) sample_url (400, 200) w)).
  discriminate.
Defined.

Lemma download_success_is_cached_witness :
  exists bytes,
    files (download_image png_only "No such file" sample_digest sample_cache_dir
             (fun _ => GetReturns None png_body None) sample_url (400, 200)
             (World ∅ [] [])).2
      !! cache_path_of sample_digest sample_cache_dir sample_url = Some bytes
    /\ png_only bytes (400, 200).1 (400, 200).2
       = inl [Byte.x89; Byte.x50; Byte.x4e; Byte.x47].
Proof.
  apply (download_success_is_cached png_only "No such file" sample_digest
           sample_cache_dir (fun _ => GetReturns None png_body None) sample_url
           (400, 200) (World ∅ [] [])).
  reflexivity.
Defined.

(** ** Icon URL *)

Lemma append_inj_l (p a b : string) : p ++ a = p ++ b -> a = b.
Proof.
  induction p as [|c p IH]; [auto|]. rewrite !append_cons. intros [= H]. auto.
Qed.

Lemma append_length (a b : string) :
  String.length (a ++ b) = (String.length a + String.length b)%nat.
Proof.
  induction a as [|c a IH]; [reflexivity|]. rewrite append_cons. cbn. congruence.
Qed.

Lemma append_inj_r (a b t : string) : a ++ t = b ++ t -> a = b.
Proof.
  revert b. induction a as [|c a IH]; intros [|c' b] H.
  - reflexivity.
  - apply (f_equal String.length) in H. rewrite !append_length in H.
    cbn in H. lia.
  - apply (f_equal String.length) in H. rewrite !append_length in H.
    cbn in H. lia.
  - rewrite !append_cons in H. injection H as -> H. f_equal. auto.
Qed.

(** X4: the icon URL determines the package id: two packages never
    share an icon URL. *)
Theorem get_app_icon_url_injective (a b : string) :
  get_app_icon_url a = get_app_icon_url b -> a = b.
Proof.
  unfold get_app_icon_url. intros H.
  apply append_inj_l in H. apply append_inj_r in H. exact H.
Qed.

Lemma get_app_icon_url_injective_witness : "org.gimp.GIMP" = "org.gimp.GIMP".
Proof. apply get_app_icon_url_injective. reflexivity. Defined.

(** ** Catalog normalisation on well-formed and ill-formed responses *)

Lemma normalize_entry_dom (d : gmap string pyval) :
  exists r, normalize_entry (PDict d) = Some (PDict r)
            /\ dom r = list_to_set record_keys.
Proof.
  eexists. split; [reflexivity|].
  rewrite !dom_insert_L, dom_empty_L. unfold record_keys. cbn. set_solver.
Qed.

(** X5: a response that is a list of JSON objects is never refused: it
    yields one record per object, in order (the record at each position
    is the one built from the object at that position), and every record
    has exactly the six keys [flatpakAppId], [name], [summary],
    [categories], [icon] and [screenshots]. *)
Theorem parse_objects_total (ds : list (gmap string pyval)) :
  exists rs,
    _parse_v2_response (PList (PDict <$> ds)) = Some (PDict <$> rs)
    /\ length rs = length ds
    /\ Forall2 (fun d r => normalize_entry (PDict d) = Some (PDict r)
                           /\ dom r = list_to_set record_keys) ds rs.
Proof.
  cbn [_parse_v2_response].
  induction ds as [|d ds (rs & IH & Hlen & Hall)].
  - exists []. repeat split. constructor.
  - destruct (normalize_entry_dom d) as (r & Hr & Hdom).
    exists (r :: rs). rewrite !fmap_cons. cbn [normalize_all].
    rewrite Hr, IH. repeat split; [cbn; congruence | constructor; auto].
Qed.

(** X6: a list response is refused (the call raises) exactly when one of
    its entries is not a JSON object. *)
Theorem parse_list_raises_iff (entries : list pyval) :
  _parse_v2_response (PList entries) = None
  <-> Exists (fun entry => forall d, entry <> PDict d) entries.
Proof.
  cbn [_parse_v2_response]. induction entries as [|entry entries IH].
  - split; [discriminate | intros H; inversion H].
  - cbn [normalize_all]. destruct entry as [| | | | | |d];
      try (split; [intros _; left; intros d'; discriminate | reflexivity]).
    cbn [normalize_entry]. destruct (normalize_all entries) as [rs|].
    + split; [discriminate|]. intros H. inversion H as [? ? H0|? ? H0]; subst.
      * exfalso. exact (H0 d eq_refl).
      * apply IH in H0. discriminate.
    + split; [|reflexivity]. intros _. right. apply IH. reflexivity.
Qed.

(** ** Catalog loader *)

Lemma str_of_nat_inj (n m : nat) : str_of_nat n = str_of_nat m -> n = m.
Proof.
  unfold str_of_nat. intros H.
  apply (f_equal DecimalString.NilEmpty.uint_of_string) in H.
  rewrite !DecimalString.NilEmpty.usu in H. injection H as H.
  apply DecimalNat.Unsigned.to_uint_inj, H.
Qed.

(** X7: however the two sources answer, the loader queues exactly these
    callbacks: the spinner on and the opening status; the notice of the
    fallback when the API path failed; the status
    [Loaded N applications from API] or
    [Loaded N applications via flatpak search], where N is the decimal
    length of the new catalog and of no other number; the spinner off
    and the redraw of the store. *)
Theorem load_flathub_apps_always_finishes
    (api : catalog_response) (flatpak : run_outcome) :
  let r := load_flathub_apps api flatpak in
  let from_api := match api_catalog api with Some _ => true | None => false end in
  let source := if from_api then " applications from API"
                else " applications via flatpak search" in
  r.1.2
  = ([ShowLoading true; LoaderStatus "Loading applications from Flathub..."]
     ++ (if from_api then []
         else [LoaderStatus "API unavailable, using local flatpak search..."])
     ++ [LoaderStatus ("Loaded " ++ str_of_nat (length r.1.1) ++ source);
         ShowLoading false; DisplayApps])%list
  /\ (forall n,
        "Loaded " ++ str_of_nat n ++ source
        = "Loaded " ++ str_of_nat (length r.1.1) ++ source ->
        n = length r.1.1).
Proof.
  cbn zeta. split.
  - unfold load_flathub_apps. destruct (api_catalog api) as [apps|]; [reflexivity|].
    destruct (_load_apps_via_flatpak flatpak) as [apps lines]. reflexivity.
  - intros n H. apply append_inj_l, append_inj_r in H. apply str_of_nat_inj, H.
Qed.

(** X8: the catalog ends up empty in two cases only: the API answered
    well and its response held no entry, or the API path failed and the
    package manager call itself raised. *)
Theorem load_flathub_apps_empty_iff
    (api : catalog_response) (flatpak : run_outcome) :
  (load_flathub_apps api flatpak).1.1 = []
  <-> api_catalog api = Some []
      \/ (api_catalog api = None /\ exists e, flatpak = RunRaises e).
Proof.
  unfold load_flathub_apps. destruct (api_catalog api) as [apps|]; cbn.
  - split; [intros ->; auto | intros [[= ->] | [[=] _]]; reflexivity].
  - pose proof (load_apps_returned_nonempty) as Hne.
    destruct flatpak as [e|returncode stdout stderr].
    + cbn. split; [intros _; right; eauto | reflexivity].
    + specialize (Hne returncode stdout stderr).
      destruct (_load_apps_via_flatpak (RunReturns returncode stdout stderr))
        as [apps lines]. cbn in *.
      split; [intros ->; contradiction | intros [[=] | [_ [e [=]]]]].
Qed.

(** ** Fallback catalog *)

Lemma guess_is_one_category (app_id : string) :
  exists category, _guess_category_from_id app_id = [category].
Proof. rewrite guess_is_first_match. eauto. Qed.

Lemma remote_entry_shape (line : string) (app : pyval) :
  remote_entry_of_line line = Some app ->
  exists app_id name summary category,
    app = fallback_app app_id name summary [category]
    /\ (name = "" -> app_id = "").
Proof.
  unfold remote_entry_of_line.
  destruct (_ && _); [|discriminate].
  destruct (2 <=? _)%nat; [|discriminate].
  intros [= <-].
  destruct (guess_is_one_category (nth 0 (PyStr.split PyStr.tab line) ""))
    as [category ->].
  do 4 eexists. split; [reflexivity|].
  destruct (nth 1 (PyStr.split PyStr.tab line) "") eqn:E; cbn; [auto | discriminate].
Qed.

Lemma load_apps_shape (run : run_outcome) :
  Forall (fun app =>
            exists app_id name summary category,
              app = fallback_app app_id name summary [category]
              /\ (name = "" -> app_id = ""))
         (_load_apps_via_flatpak run).1.
Proof.
  assert (Hseed : Forall (fun app =>
            exists app_id name summary category,
              app = fallback_app app_id name summary [category]
              /\ (name = "" -> app_id = "")) seed_apps).
  { unfold seed_apps, popular_apps. cbn [map].
    repeat (constructor; [do 4 eexists; split; [reflexivity | discriminate]|]).
    constructor. }
  destruct run as [e|returncode stdout stderr]; cbn; [constructor|].
  destruct (returncode =? 0); [|exact Hseed].
  destruct (omap remote_entry_of_line _) as [|app parsed] eqn:E; [exact Hseed|].
  rewrite <- E. apply Forall_forall. intros x Hx.
  apply list_elem_of_omap in Hx as (line & _ & Hline).
  eapply remote_entry_shape, Hline.
Qed.

(** X9: every application of the fallback catalog, parsed or seeded, is
    a record with a string id, name and summary and exactly one category;
    its name is empty only if its id is. *)
Theorem fallback_catalog_records (run : run_outcome) :
  Forall (fun app =>
            exists app_id name summary category,
              app = fallback_app app_id name summary [category]
              /\ (name = "" -> app_id = ""))
         (_load_apps_via_flatpak run).1.
Proof. exact (load_apps_shape run). Qed.

(** ** Category guess: a keyword that never decides *)

Lemma contains_trans (a b s : string) :
  PyStr.contains a b = true -> PyStr.contains b s = true -> PyStr.contains a s = true.
Proof.
  rewrite !contains_spec. intros (p1 & q1 & ->) (p2 & q2 & ->).
  exists (p2 ++ p1), (q1 ++ q2).
  assert (Hassoc : forall x y z : string, (x ++ y) ++ z = x ++ (y ++ z)).
  { induction x as [|c x IH]; intros; [reflexivity|].
    rewrite !append_cons. f_equal. apply IH. }
  rewrite !Hassoc. reflexivity.
Qed.

(** X10: the keyword [calculator] of the Utility rule is shadowed by
    [calc] of the Office rule: an id that contains it, in any
    capitalisation, is classed Network or Office, never Utility. *)
Theorem calculator_is_never_utility (app_id : string) :
  PyStr.contains "calculator" (PyStr.lower app_id) = true ->
  _guess_category_from_id app_id = ["Network"]
  \/ _guess_category_from_id app_id = ["Office"].
Proof.
  intros H.
  assert (Hcalc : PyStr.contains "calc" (PyStr.lower app_id) = true).
  { eapply contains_trans; [|exact H]. reflexivity. }
  unfold _guess_category_from_id.
  destruct (any_term_in ["firefox"; "chrome"; "telegram"; "discord"; "thunderbird"]
              (PyStr.lower app_id)); [left; reflexivity|].
  right. unfold any_term_in. cbn [existsb]. rewrite Hcalc, !orb_true_r. reflexivity.
Qed.

Lemma calculator_is_never_utility_witness :
  _guess_category_from_id "org.gnome.Calculator" = ["Network"]
  \/ _guess_category_from_id "org.gnome.Calculator" = ["Office"].
Proof. apply calculator_is_never_utility. reflexivity. Defined.

(** ** Filtering *)

Lemma lower_char_idem (c : ascii) :
  PyStr.lower_char (PyStr.lower_char c) = PyStr.lower_char c.
Proof. destruct c as [[] [] [] [] [] [] [] []]; vm_compute; reflexivity. Qed.

Lemma lower_idem (s : string) : PyStr.lower (PyStr.lower s) = PyStr.lower s.
Proof.
  induction s as [|c s IH]; [reflexivity|]. cbn. rewrite lower_char_idem, IH. reflexivity.
Qed.

Lemma nonempty_lower (s : string) : PyStr.nonempty (PyStr.lower s) = PyStr.nonempty s.
Proof. destruct s; reflexivity. Qed.

Lemma passes_search_lower (term : string) (app : pyval) :
  passes_search (PyStr.lower term) app = passes_search term app.
Proof. unfold passes_search. rewrite nonempty_lower, lower_idem. reflexivity. Qed.

(** X11: with the category [all] and an empty search term the filter
    returns the catalog as it is, whatever its entries are. *)
Theorem filter_all_is_identity (available_apps : list pyval) :
  filter_apps "all" "" available_apps = Some available_apps.
Proof.
  induction available_apps as [|app rest IH]; [reflexivity|].
  cbn [filter_apps]. rewrite IH. reflexivity.
Qed.

(** X12: what the filter returns is a subsequence of the catalog: it
    drops entries, and neither reorders, repeats nor invents any. *)
Theorem filter_apps_sublist
    (current_category search_term : string) (available_apps filtered : list pyval) :
  filter_apps current_category search_term available_apps = Some filtered ->
  sublist filtered available_apps.
Proof.
  revert filtered. induction available_apps as [|app rest IH]; intros filtered.
  - intros [= <-]. constructor.
  - cbn [filter_apps]. destruct (keeps _ _ app) as [keep|]; [|discriminate].
    destruct (filter_apps _ _ rest) as [r|]; [|discriminate].
    intros [= <-]. destruct keep; [apply sublist_skip | apply sublist_cons]; auto.
Qed.

Lemma filter_apps_sublist_witness : sublist [vlc_app] [gimp_app; vlc_app].
Proof.
  apply (filter_apps_sublist "AudioVideo" "" [gimp_app; vlc_app] [vlc_app]).
  reflexivity.
Defined.

Lemma filter_apps_search_lower
    (current_category search_term : string) (available_apps : list pyval) :
  filter_apps current_category (PyStr.lower search_term) available_apps
  = filter_apps current_category search_term available_apps.
Proof.
  induction available_apps as [|app rest IH]; [reflexivity|].
  cbn [filter_apps]. unfold keeps. rewrite passes_search_lower, IH. reflexivity.
Qed.

(** X13: the search ignores the capitalisation of the term: two terms
    with the same lower-case form select the same applications. *)
Theorem filter_apps_ignores_case
    (current_category term term' : string) (available_apps : list pyval) :
  PyStr.lower term = PyStr.lower term' ->
  filter_apps current_category term available_apps
  = filter_apps current_category term' available_apps.
Proof.
  intros H. rewrite <- (filter_apps_search_lower _ term),
                    <- (filter_apps_search_lower _ term'), H.
  reflexivity.
Qed.

Lemma filter_apps_ignores_case_witness :
  filter_apps "all" "VLC" [gimp_app; vlc_app] = filter_apps "all" "vlc" [gimp_app; vlc_app].
Proof. apply filter_apps_ignores_case. reflexivity. Defined.

(** X14: an API entry without a [categories] field is normalised to a
    record that no category filter other than [all] lets through,
    whatever the search term. *)
Theorem uncategorised_record_is_filtered_out
    (d : gmap string pyval) (record : pyval) (current_category search_term : string) :
  d !! "categories" = None ->
  normalize_entry (PDict d) = Some record ->
  current_category <> "all" ->
  filter_apps current_category search_term [record] = Some [].
Proof.
  intros Hd [= <-] Hcat. cbn [filter_apps]. unfold keeps, passes_category.
  rewrite (proj2 (String.eqb_neq current_category "all") Hcat).
  cbn [py_get]. unfold dict_get at 1.
  rewrite lookup_insert_ne, lookup_insert_ne, lookup_insert_ne, lookup_insert_eq
    by discriminate.
  unfold dict_get. rewrite Hd. reflexivity.
Qed.

Lemma uncategorised_record_is_filtered_out_witness :
  exists record,
    normalize_entry (PDict vlc_entry) = Some record
    /\ filter_apps "AudioVideo" "" [record] = Some [].
Proof.
  eexists. split; [reflexivity|].
  apply (uncategorised_record_is_filtered_out vlc_entry _ "AudioVideo" "");
    [reflexivity | reflexivity | discriminate].
Defined.

Lemma keeps_fallback_app
    (current_category search_term app_id name summary : string)
    (categories : list string) :
  is_Some (keeps current_category search_term
                 (fallback_app app_id name summary categories)).
Proof.
  unfold keeps, passes_category, passes_search, lower_field, fallback_app, str_list.
  cbn [py_get]. unfold dict_get.
  rewrite ?lookup_insert_eq.
  repeat (rewrite lookup_insert_ne by discriminate; rewrite ?lookup_insert_eq).
  cbn [default py_lower str_in].
  repeat case_match; simplify_eq; eauto.
Qed.

Lemma filter_apps_defined
    (current_category search_term : string) (apps : list pyval) :
  Forall (fun app => is_Some (keeps current_category search_term app)) apps ->
  is_Some (filter_apps current_category search_term apps).
Proof.
  induction 1 as [|app rest [keep Hk] _ [filtered IH]]; [eauto|].
  cbn [filter_apps]. rewrite Hk, IH. eauto.
Qed.

(** X15: filtering the fallback catalog never raises, whatever the
    package manager call did and whatever category and search term are
    set. *)
Theorem filter_fallback_catalog_never_raises
    (run : run_outcome) (current_category search_term : string) :
  is_Some (filter_apps current_category search_term (_load_apps_via_flatpak run).1).
Proof.
  apply filter_apps_defined. eapply Forall_impl; [apply load_apps_shape|].
  intros app (app_id & name & summary & category & -> & _).
  apply keeps_fallback_app.
Qed.

(** X16: filtering is idempotent: filtering a filtered list again, with
    the same category and term, changes nothing. *)
Theorem filter_apps_idempotent
    (current_category search_term : string) (available_apps filtered : list pyval) :
  filter_apps current_category search_term available_apps = Some filtered ->
  filter_apps current_category search_term filtered = Some filtered.
Proof.
  revert filtered. induction available_apps as [|app rest IH]; intros filtered.
  - intros [= <-]. reflexivity.
  - cbn [filter_apps]. destruct (keeps _ _ app) as [keep|] eqn:Hk; [|discriminate].
    destruct (filter_apps _ _ rest) as [r|]; [|discriminate].
    intros [= <-]. destruct keep; [|auto].
    cbn [filter_apps]. rewrite Hk, (IH r eq_refl). reflexivity.
Qed.

Lemma filter_apps_idempotent_witness :
  filter_apps "AudioVideo" "" [vlc_app] = Some [vlc_app].
Proof.
  apply (filter_apps_idempotent "AudioVideo" "" [gimp_app; vlc_app]). reflexivity.
Defined.

(** ** Display *)




(** ** Operations: their net effect on the controller state *)

Lemma end_begin_operation (app_id label : string) (installed : gset string)
    (operations : gmap string string) :
  end_operation app_id (Store installed (<[app_id := label]> operations))
  = Store installed (delete app_id operations).
Proof.
  unfold end_operation. cbn.
  rewrite bool_decide_eq_true_2 by (rewrite lookup_insert_eq; eauto).
  rewrite delete_insert_eq. reflexivity.
Qed.



Lemma update_app_state (run : run_outcome) (app_id name : string) (st : store) :
  (update_app run app_id name st).1
  = Store (installed_apps st) (delete app_id (current_operations st)).
Proof.
  unfold update_app, update_worker, begin_operation. cbn [fst].
  apply end_begin_operation.
Qed.

Lemma end_operation_delete (app_id : string) (st : store) :
  end_operation app_id st
  = Store (installed_apps st) (delete app_id (current_operations st)).
Proof.
  unfold end_operation. case_bool_decide as H; [reflexivity|].
  rewrite delete_id by (apply eq_None_not_Some, H). destruct st; reflexivity.
Qed.

Lemma install_worker_state (popen : popen_outcome) (app_id name : string) (st : store) :
  (install_worker popen app_id name st).1
  = Store (match popen with
           | PopenRuns _ (inr 0) => {[app_id]} ∪ installed_apps st
           | _ => installed_apps st
           end)
          (delete app_id (current_operations st)).
Proof.
  unfold install_worker.
  destruct popen as [e|lines [e|returncode]];
    [ | | destruct (Z.eqb_spec returncode 0) as [->|Hne]];
    cbn [fst]; rewrite end_operation_delete; try reflexivity.
  destruct returncode; [congruence | reflexivity | reflexivity].
Qed.

Lemma uninstall_worker_state (run : run_outcome) (app_id name : string) (st : store) :
  (uninstall_worker run app_id name st).1
  = Store (match run with
           | RunReturns 0 _ _ => installed_apps st ∖ {[app_id]}
           | _ => installed_apps st
           end)
          (delete app_id (current_operations st)).
Proof.
  unfold uninstall_worker.
  destruct run as [e|returncode stdout stderr];
    [ | destruct (Z.eqb_spec returncode 0) as [->|Hne]];
    cbn [fst]; rewrite end_operation_delete; try reflexivity.
  destruct returncode; [congruence | reflexivity | reflexivity].
Qed.

(** X18: the state a worker leaves depends only on the state it started
    from and on the outcome of its subprocess, not on the progress or the
    messages: the entry of the package is gone from
    [current_operations], and the installed set gains the id when the
    install worker sees exit code 0, loses it when the uninstall worker
    sees exit code 0, and is unchanged in every other case; [update]
    leaves the installed set unchanged on every outcome. *)
Theorem worker_net_effect (app_id name : string) (st : store) :
  (forall popen,
      (install_worker popen app_id name st).1
      = Store (match popen with
               | PopenRuns _ (inr 0) => {[app_id]} ∪ installed_apps st
               | _ => installed_apps st
               end)
              (delete app_id (current_operations st)))
  /\ (forall run,
        (uninstall_worker run app_id name st).1
        = Store (match run with
                 | RunReturns 0 _ _ => installed_apps st ∖ {[app_id]}
                 | _ => installed_apps st
                 end)
                (delete app_id (current_operations st)))
  /\ (forall run,
        (update_app run app_id name st).1
        = Store (installed_apps st) (delete app_id (current_operations st))).
Proof.
  split; [|split]; intros; [apply install_worker_state | apply uninstall_worker_state
                           | apply update_app_state].
Qed.

(** X19: run back to back on a package that was not installed, the
    install worker and then the uninstall worker, both seeing exit code
    0, leave the installed set the install worker started from. *)
Theorem install_worker_then_uninstall_worker
    (lines : list string) (stdout stderr app_id name : string) (st : store) :
  app_id ∉ installed_apps st ->
  installed_apps
    (uninstall_worker (RunReturns 0 stdout stderr) app_id name
       (install_worker (PopenRuns lines (inr 0)) app_id name st).1).1
  = installed_apps st.
Proof.
  intros H. rewrite uninstall_worker_state, install_worker_state. cbn. set_solver.
Qed.

Lemma install_worker_then_uninstall_worker_witness :
  let st := Store {[ "org.videolan.VLC" ]} ∅ in
  installed_apps
    (uninstall_worker (RunReturns 0 "" "") "org.gimp.GIMP" "GIMP"
       (install_worker (PopenRuns [] (inr 0)) "org.gimp.GIMP" "GIMP" st).1).1
  = installed_apps st.
Proof.
  intros st.
  apply (install_worker_then_uninstall_worker [] "" "" "org.gimp.GIMP" "GIMP" st).
  subst st. cbn. set_solver.
Defined.

(** ** Store cards and operations *)

Lemma card_controls_frame (other : string) (st st' : store) :
  current_operations st' !! other = current_operations st !! other ->
  (other ∈ installed_apps st' <-> other ∈ installed_apps st) ->
  card_controls_of other st' = card_controls_of other st.
Proof.
  intros Hops Hin. unfold card_controls_of. rewrite Hops.
  destruct (current_operations st !! other); [reflexivity|].
  destruct (decide (other ∈ installed_apps st)) as [H|H].
  - rewrite !bool_decide_eq_true_2 by tauto. reflexivity.
  - rewrite !bool_decide_eq_false_2 by tauto. reflexivity.
Qed.


(** X21: a worker leaves the card of every other package as it was,
    whatever its outcome: the install worker, the uninstall worker, and
    the whole of [update]. *)
Theorem worker_leaves_other_cards (app_id name other : string) (st : store) :
  other <> app_id ->
  (forall popen,
      card_controls_of other (install_worker popen app_id name st).1
      = card_controls_of other st)
  /\ (forall run,
        card_controls_of other (uninstall_worker run app_id name st).1
        = card_controls_of other st)
  /\ (forall run,
        card_controls_of other (update_app run app_id name st).1
        = card_controls_of other st).
Proof.
  intros Hne. split; [|split].
  - intros popen. apply card_controls_frame; rewrite install_worker_state; cbn.
    + apply lookup_delete_ne. congruence.
    + destruct popen as [e|lines [e|[| |]]]; set_solver.
  - intros run. apply card_controls_frame; rewrite uninstall_worker_state; cbn.
    + apply lookup_delete_ne. congruence.
    + destruct run as [e|[| |] stdout stderr]; set_solver.
  - intros run. apply card_controls_frame; rewrite update_app_state; cbn.
    + apply lookup_delete_ne. congruence.
    + reflexivity.
Qed.

Lemma worker_leaves_other_cards_witness :
  card_controls_of "org.videolan.VLC"
    (uninstall_worker (RunReturns 0 "" "") "org.gimp.GIMP" "GIMP"
       (Store {[ "org.videolan.VLC"; "org.gimp.GIMP" ]} ∅)).1
  = card_controls_of "org.videolan.VLC"
      (Store {[ "org.videolan.VLC"; "org.gimp.GIMP" ]} ∅).
Proof.
  apply (proj1 (proj2 (worker_leaves_other_cards "org.gimp.GIMP" "GIMP"
                         "org.videolan.VLC"
                         (Store {[ "org.videolan.VLC"; "org.gimp.GIMP" ]} ∅)
                         ltac:(discriminate)))).
Defined.

(** ** Description label *)

Lemma substring_length_le (n : nat) (s : string) :
  (String.length (substring 0 n s) <= n)%nat.
Proof.
  revert s. induction n as [|n IH]; intros [|c s]; cbn; try lia.
  specialize (IH s). lia.
Qed.

(** X22: the description label of a card is never longer than the limit
    plus the three dots, and a summary within the limit is shown as it
    is. *)
Theorem description_label_bounded (limit : nat) (s : string) :
  (String.length (description_label limit s) <= limit + 3)%nat
  /\ ((String.length s <= limit)%nat -> description_label limit s = s).
Proof.
  unfold description_label. destruct (Nat.ltb_spec limit (String.length s)); split.
  - rewrite append_length. pose proof (substring_length_le limit s). cbn. lia.
  - lia.
  - lia.
  - reflexivity.
Qed.

Lemma description_label_bounded_witness : description_label 120 "Media player" = "Media player".
Proof. apply (proj2 (description_label_bounded 120 "Media player")). cbn. lia. Defined.

(** ** Installed-set tracker: the set and the cards agree *)

(** X23: after a list call that returned, a package id is in the
    installed set exactly when a card was queued for it; after one that
    failed, the set is the one from before and one status is posted. *)
Theorem installed_set_matches_cards (run : list_outcome) (st : store) :
  let r := load_installed_apps run st in
  match run with
  | ListReturns _ =>
      forall app_id,
        app_id ∈ installed_apps r.1
        <-> exists name description,
              In (IdleAdd (AddInstalledAppCard app_id name description)) r.2
  | _ => r.1 = st /\ exists message, r.2 = [IdleAdd (ShowStatus message)]
  end.
Proof.
  cbn zeta. destruct run as [e|e|stdout]; [split; eauto | split; eauto |].
  intros app_id. unfold load_installed_apps. rewrite fold_add_entry. cbn [fst snd].
  cbn [installed_apps app]. rewrite elem_of_union, elem_of_list_to_set, list_elem_of_fmap.
  split.
  - intros [([[i n] d] & -> & Hin) | Hempty]; [|set_solver].
    exists n, d. right. apply list_elem_of_In, list_elem_of_fmap.
    exists (i, n, d). split; [reflexivity | exact Hin].
  - intros (n & d & [Hclear | Hin]); [discriminate|].
    apply list_elem_of_In, list_elem_of_fmap in Hin as ([[i n'] d'] & Heq & Hin).
    left. injection Heq as -> -> ->. exists (i, n', d'). split; [reflexivity | exact Hin].
Qed.

(** ** Search debounce *)

Lemma recorded_only_initial : recorded_only initial_search.
Proof. intros id [term H]. cbn in H. rewrite lookup_empty in H. discriminate. Qed.

Lemma on_search_changed_pending (text : string) (s : search_state) :
  recorded_only s ->
  pending (on_search_changed text s) = {[ next_source s := PyStr.strip text ]}.
Proof.
  intros Hs. unfold on_search_changed. cbn [pending].
  apply map_eq. intros id.
  destruct (decide (id = next_source s)) as [->|Hne].
  - rewrite lookup_insert_eq, lookup_singleton_eq. reflexivity.
  - rewrite lookup_insert_ne, lookup_singleton_ne by congruence.
    destruct (search_timeout s) as [old|] eqn:Hold.
    + destruct (decide (id = old)) as [->|Hne'].
      * apply lookup_delete_eq.
      * rewrite lookup_delete_ne by congruence.
        apply eq_None_not_Some. intros H. apply Hs in H. congruence.
    + apply eq_None_not_Some. intros H. apply Hs in H. congruence.
Qed.

Lemma on_search_changed_recorded (text : string) (s : search_state) :
  recorded_only s -> recorded_only (on_search_changed text s).
Proof.
  intros Hs id [term H]. rewrite (on_search_changed_pending _ _ Hs) in H.
  apply lookup_singleton_Some in H as [<- _]. reflexivity.
Qed.

Lemma timeout_fires_recorded (id : nat) (s : search_state) :
  recorded_only s -> recorded_only (timeout_fires id s).1.
Proof.
  intros Hs. unfold timeout_fires. destruct (pending s !! id) eqn:E; [|exact Hs].
  intros id' [term H]. cbn in *.
  apply lookup_delete_Some in H as [_ H]. apply Hs. eauto.
Qed.

Lemma search_run_recorded (inputs : list search_input) (s : search_state) :
  recorded_only s -> recorded_only (search_run inputs s).1.
Proof.
  revert s. induction inputs as [|[text|id] inputs IH]; intros s Hs; cbn [search_run].
  - exact Hs.
  - apply IH, on_search_changed_recorded, Hs.
  - pose proof (timeout_fires_recorded id s Hs) as H.
    destruct (timeout_fires id s) as [s' shown]. specialize (IH s' H).
    destruct (search_run inputs s') as [s'' later]. exact IH.
Qed.

Lemma recorded_only_size (s : search_state) :
  recorded_only s -> (size (pending s) <= 1)%nat.
Proof.
  intros Hs. destruct (search_timeout s) as [id|] eqn:E.
  - assert (H : pending s ⊆ {[ id := default "" (pending s !! id) ]}).
    { apply map_subseteq_spec. intros i x Hi.
      assert (i = id) as -> by (specialize (Hs i (ex_intro _ x Hi)); congruence).
      rewrite Hi. apply lookup_singleton_eq. }
    apply map_subseteq_size in H. rewrite map_size_singleton in H. exact H.
  - assert (pending s = ∅) as ->.
    { apply map_empty. intros i. apply eq_None_not_Some. intros H.
      apply Hs in H. congruence. }
    rewrite map_size_empty. lia.
Qed.

(** X24: whatever keystrokes and due timers follow one another from the
    start, at most one search timer is pending at any moment. *)
Theorem at_most_one_search_timer (inputs : list search_input) :
  (size (pending (search_run inputs initial_search).1) <= 1)%nat.
Proof. apply recorded_only_size, search_run_recorded, recorded_only_initial. Qed.


(** ** Media loader *)

Lemma screenshot_urls_singleton
    (detail_get : string -> detail_response) (app_id : string) :
  exists url, get_app_screenshot_urls detail_get app_id = [url].
Proof.
  unfold get_app_screenshot_urls.
  destruct (screenshot_try (detail_get (detail_url app_id))) as [urls| |] eqn:E; eauto.
  apply screenshot_try_returned in E. destruct urls as [|u [|u' urls]]; try discriminate.
  eauto.
Qed.

Section MediaLoaderFacts.

Context {pixbuf : Type}.
Variable decode_at_scale : list Byte.byte -> Z -> Z -> pixbuf + string.
Variable no_such_file : string.
Variable md5_hexdigest : string -> string.
Variable cache_dir : string.
Variable detail_get : string -> detail_response.
Variable requests_get : string -> image_response.

Local Abbreviation cache_path := (cache_path_of md5_hexdigest cache_dir).
Local Abbreviation download := (download_image decode_at_scale no_such_file
                                  md5_hexdigest cache_dir requests_get).
Local Abbreviation worker := (load_worker decode_at_scale no_such_file
                                md5_hexdigest cache_dir detail_get requests_get).

Lemma download_requests (url : string) (max_size : Z * Z) (w : world) :
  exists sent, requests_sent (download url max_size w).2 = (requests_sent w ++ sent)%list
               /\ (length sent <= 1)%nat.
Proof.
  destruct (download_cases decode_at_scale no_such_file md5_hexdigest cache_dir
              requests_get url max_size w)
    as [[_ Hr] | [(bytes & image0 & Hf & Hd & Hr) | (_ & Hreq & _)]]; cbn zeta in *.
  - exists []. rewrite Hr, app_nil_r. cbn. split; [reflexivity | lia].
  - exists []. rewrite Hr, app_nil_r. cbn. split; [reflexivity | lia].
  - exists [url]. split; [exact Hreq | cbn; lia].
Qed.

(** X26: a screenshot entry whose URL is a true value other than a
    string stops the worker once the detail request has answered: the
    error is printed, no image request is sent, no file is touched, no
    image is set, and the icon is not tried. *)
Theorem load_worker_non_string_url (app_id : string) (w : world) (url : pyval) :
  get_app_screenshot_urls detail_get app_id = [url] ->
  truthy url = true ->
  (forall s, url <> PStr s) ->
  worker app_id true w
  = (None, print ("Error loading media for " ++ app_id ++ ": '" ++ type_name url
                  ++ "' object has no attribute 'encode'") w).
Proof.
  intros Hurls Ht Hs. unfold load_worker. rewrite Hurls. cbn [first_image].
  unfold download_image_value. rewrite Ht. cbn [negb].
  destruct url; try reflexivity. exfalso. eapply Hs. reflexivity.
Qed.

(** X27: when the detail request raises, the banner worker falls back to
    the icon twice over: with the icon neither cached nor reachable, the
    icon URL is requested two times, two failures are printed, no file is
    written and no image is set. *)
Theorem load_worker_retries_icon (app_id : string) (w : world) (e : string) :
  detail_get (detail_url app_id) = DetailRaises ->
  files w !! cache_path (get_app_icon_url app_id) = None ->
  requests_get (get_app_icon_url app_id) = GetRaises e ->
  worker app_id true w
  = (None,
     World (files w)
           (requests_sent w ++ [get_app_icon_url app_id; get_app_icon_url app_id])
           (printed w ++ [download_error (get_app_icon_url app_id) e;
                          download_error (get_app_icon_url app_id) e])).
Proof.
  intros Hd Hf Hg.
  assert (Hdl : forall size w0, files w0 = files w ->
            download (get_app_icon_url app_id) size w0
            = (None, print (download_error (get_app_icon_url app_id) e)
                       (send_request (get_app_icon_url app_id) w0))).
  { intros size w0 Hw0. rewrite download_unfold.
    change (PyStr.nonempty (get_app_icon_url app_id)) with true. cbn iota.
    rewrite Hw0, Hf. unfold fetch_and_store. rewrite Hg. reflexivity. }
  unfold load_worker, get_app_screenshot_urls. rewrite Hd. cbn [screenshot_try first_image].
  unfold download_image_value. cbn [truthy].
  change (PyStr.nonempty (get_app_icon_url app_id)) with true. cbn [negb].
  rewrite (Hdl _ w eq_refl). cbn [first_image]. rewrite Hdl by reflexivity.
  unfold print, send_request. cbn. rewrite <- !app_assoc. reflexivity.
Qed.

(** X28: one run of the worker sends at most two image requests, and at
    most one when it loads an icon. *)
Theorem load_worker_requests_bounded (app_id : string) (screenshot : bool) (w : world) :
  exists sent,
    requests_sent (worker app_id screenshot w).2 = (requests_sent w ++ sent)%list
    /\ (length sent <= if screenshot then 2 else 1)%nat.
Proof.
  unfold load_worker. destruct screenshot; [|apply download_requests].
  destruct (screenshot_urls_singleton detail_get app_id) as [url ->].
  cbn [first_image]. unfold download_image_value.
  destruct (truthy url) eqn:Ht; cbn [negb].
  - destruct url; try (exists []; cbn; rewrite app_nil_r; split; [reflexivity | lia]).
    destruct (download_requests s (400, 180) w) as (sent1 & H1 & Hl1).
    destruct (download s (400, 180) w) as [[image|] w1]; cbn [snd] in *.
    + exists sent1. split; [exact H1 | lia].
    + destruct (download_requests (get_app_icon_url app_id) (128, 128) w1)
        as (sent2 & H2 & Hl2).
      exists (sent1 ++ sent2)%list. rewrite H2, H1, <- app_assoc, length_app.
      split; [reflexivity | lia].
  - destruct (download_requests (get_app_icon_url app_id) (128, 128) w)
      as (sent2 & H2 & Hl2).
    exists sent2. split; [exact H2 | lia].
Qed.

End MediaLoaderFacts.

Lemma load_worker_non_string_url_witness :
  load_worker png_only "No such file" sample_digest sample_cache_dir
    detail_with_number (fun _ => GetRaises "timed out") "org.gimp.GIMP" true
    (World ∅ [] [])
  = (None, World ∅ [] ["Error loading media for org.gimp.GIMP: 'int' object has no attribute 'encode'"]).
Proof.
  apply (load_worker_non_string_url png_only "No such file" sample_digest
           sample_cache_dir detail_with_number (fun _ => GetRaises "timed out")
           "org.gimp.GIMP" (World ∅ [] []) (PInt 5));
    [reflexivity | reflexivity | discriminate].
Defined.

Lemma load_worker_retries_icon_witness :
  requests_sent
    (load_worker png_only "No such file" sample_digest sample_cache_dir
       (fun _ => DetailRaises) (fun _ => GetRaises "timed out") "org.gimp.GIMP" true
       (World ∅ [] [])).2
  = [get_app_icon_url "org.gimp.GIMP"; get_app_icon_url "org.gimp.GIMP"].
Proof.
  rewrite (load_worker_retries_icon png_only "No such file" sample_digest
             sample_cache_dir (fun _ => DetailRaises) (fun _ => GetRaises "timed out")
             "org.gimp.GIMP" (World ∅ [] []) "timed out" eq_refl
             (lookup_empty _) eq_refl).
  reflexivity.
Defined.
